(** * merlin.py: a shallow embedding and its properties

    The script parses two Markdown documents (quotes.md and wisdom.md)
    into a dictionary from category names to lists of text items, stores
    it as wisdom.json, and prints one randomly drawn item.

    Python values are embedded as follows.
    - A [str] is the list of its Unicode code points ([pystr]); Python
      has no character type, so a character is a [pystr] of length one.
    - A [dict] whose keys are strings is an association list kept in
      insertion order, with at most one binding per key.
    - Integers that come from [len] and [enumerate] are [nat]; the index
      drawn by [random.randint] and decremented by the selector is a [Z].
    - Files, the two output streams, [sys.exit] and uncaught exceptions
      are threaded through a small state-and-exit monad. *)

From Stdlib Require Import Ascii String.
From Stdlib Require Import List NArith ZArith Bool Lia Permutation.
Import ListNotations.

Local Open Scope list_scope.

(** ** Python strings *)

Module PyStr.

Definition char := N.
Definition pystr := list char.

(** An ASCII literal of the source, as a Python string. *)
Definition lit (x : string) : pystr := map N_of_ascii (list_ascii_of_string x).

Definition str_eqb (a b : pystr) : bool :=
  if list_eq_dec N.eq_dec a b then true else false.

(** [L.startswith(p)] *)
Fixpoint startswith (L p : pystr) : bool :=
  match p, L with
  | [], _ => true
  | _ :: _, [] => false
  | x :: p', y :: L' => N.eqb x y && startswith L' p'
  end.

(** [L.endswith(p)] *)
Definition endswith (L p : pystr) : bool := startswith (rev L) (rev p).

(** [c in S] for two strings: [c] occurs in [S] as a substring. *)
Fixpoint str_in (c S : pystr) : bool :=
  startswith S c ||
  match S with
  | [] => false
  | _ :: S' => str_in c S'
  end.

(** The characters [str.strip()] removes: those for which
    [str.isspace] holds. *)
Definition isspace (c : char) : bool :=
  ((9 <=? c) && (c <=? 13) || (28 <=? c) && (c <=? 32)
   || (c =? 133) || (c =? 160) || (c =? 5760)
   || (8192 <=? c) && (c <=? 8202)
   || (c =? 8232) || (c =? 8233) || (c =? 8239) || (c =? 8287)
   || (c =? 12288))%N.

Fixpoint lstrip (L : pystr) : pystr :=
  match L with
  | [] => []
  | c :: L' => if isspace c then lstrip L' else L
  end.

Definition rstrip (L : pystr) : pystr := rev (lstrip (rev L)).

(** [L.strip()] *)
Definition strip (L : pystr) : pystr := rstrip (lstrip L).

(** [L.replace(c, '')] for a one-character [c]. *)
Definition remove_char (c : char) (L : pystr) : pystr :=
  filter (fun x => negb (N.eqb x c)) L.

(** [sep.join(parts)] *)
Fixpoint join (sep : pystr) (parts : list pystr) : pystr :=
  match parts with
  | [] => []
  | [p] => p
  | p :: rest => p ++ sep ++ join sep rest
  end.

Definition NL : pystr := [10%N].

(** The line boundaries of [str.splitlines()], carriage return apart. *)
Definition is_linebreak (c : char) : bool :=
  ((c =? 10) || (c =? 11) || (c =? 12) || (c =? 28) || (c =? 29)
   || (c =? 30) || (c =? 133) || (c =? 8232) || (c =? 8233))%N.

(** [s.splitlines()]: [cur] is the line read so far, last character
    first; a carriage return followed by a line feed is one boundary. *)
Fixpoint splitlines_from (cur s : pystr) : list pystr :=
  match s with
  | [] => match cur with [] => [] | _ => [rev cur] end
  | c :: rest =>
      if (c =? 13)%N then
        match rest with
        | d :: rest' =>
            if (d =? 10)%N then rev cur :: splitlines_from [] rest'
            else rev cur :: splitlines_from [] rest
        | [] => rev cur :: splitlines_from [] rest
        end
      else if is_linebreak c then rev cur :: splitlines_from [] rest
      else splitlines_from (c :: cur) rest
  end.

Definition splitlines (s : pystr) : list pystr := splitlines_from [] s.

(** Truth value of a string: non-empty. *)
Definition truthy (L : pystr) : bool :=
  match L with [] => false | _ :: _ => true end.

(** [any(l)] for a list of strings. *)
Definition any (l : list pystr) : bool := existsb truthy l.

End PyStr.

Export PyStr.

(** ** Python lists and dictionaries *)

Module PyList.

(** [l[i]] with Python's negative indices; [None] is an [IndexError]. *)
Definition index {A : Type} (l : list A) (i : Z) : option A :=
  let n := Z.of_nat (length l) in
  if (0 <=? i)%Z then nth_error l (Z.to_nat i)
  else if (0 <=? i + n)%Z then nth_error l (Z.to_nat (i + n))
  else None.

(** [enumerate(l)] *)
Definition enumerate {A : Type} (l : list A) : list (nat * A) :=
  combine (seq 0 (length l)) l.

(** [l[a:b]] for indices that are not negative. *)
Definition slice {A : Type} (l : list A) (a b : nat) : list A :=
  firstn (b - a) (skipn a l).

End PyList.

Module Dict.

(** A dictionary from strings to lists of strings, in insertion order. *)
Definition dict := list (pystr * list pystr).

Definition keys (d : dict) : list pystr := map fst d.

(** [d.get(k)] *)
Fixpoint get (d : dict) (k : pystr) : option (list pystr) :=
  match d with
  | [] => None
  | (k', v) :: d' => if str_eqb k' k then Some v else get d' k
  end.

(** [k in d] *)
Definition mem (k : pystr) (d : dict) : bool :=
  match get d k with Some _ => true | None => false end.

(** [d[k] = v]: an existing key keeps its place, a new one goes last. *)
Fixpoint set (d : dict) (k : pystr) (v : list pystr) : dict :=
  match d with
  | [] => [(k, v)]
  | (k', v') :: d' =>
      if str_eqb k' k then (k', v) :: d' else (k', v') :: set d' k v
  end.

(** [d[k].extend(content)] for a key that is present. *)
Fixpoint extend (d : dict) (k : pystr) (content : list pystr) : dict :=
  match d with
  | [] => []
  | (k', v') :: d' =>
      if str_eqb k' k then (k', v' ++ content) :: d'
      else (k', v') :: extend d' k content
  end.

End Dict.

Export Dict.

(** ** Files, streams and process exit *)

Module Proc.

(** What one [print] call wrote: a text, or the [repr] of a list of
    strings (the escaping rules of [repr] are not modelled). *)
Inductive out :=
| Text (s : pystr)
| Repr (l : list pystr).

Inductive exn := FileNotFoundError | ValueError | IndexError.

(** The three files the script touches (what [readlines] returns for the
    two documents, the decoded dictionary for the cache; [None] is a
    missing file) and what has been printed so far. *)
Record world := World {
  quotes_md : option (list pystr);
  wisdom_md : option (list pystr);
  wisdom_json : option dict;
  stdout : list out;
  stderr : list out
}.

(** How a computation ends: with a value, in [sys.exit(code)], or in an
    exception nothing catches. *)
Inductive outcome (A : Type) :=
| Val (a : A)
| SysExit (code : Z)
| Raised (e : exn).

Arguments Val {A} a.
Arguments SysExit {A} code.
Arguments Raised {A} e.

Definition M (A : Type) : Type := world -> outcome A * world.

Definition ret {A : Type} (a : A) : M A := fun w => (Val a, w).

Definition bind {A B : Type} (m : M A) (f : A -> M B) : M B :=
  fun w =>
    match m w with
    | (Val a, w') => f a w'
    | (SysExit c, w') => (SysExit c, w')
    | (Raised e, w') => (Raised e, w')
    end.

Definition sys_exit {A : Type} (code : Z) : M A := fun w => (SysExit code, w).

Definition raise {A : Type} (e : exn) : M A := fun w => (Raised e, w).

(** The world after [l] more has been written to standard output, to
    standard error, and after the cache has been rewritten as [d]. *)
Definition add_stdout (w : world) (l : list out) : world :=
  World (quotes_md w) (wisdom_md w) (wisdom_json w) (stdout w ++ l) (stderr w).

Definition add_stderr (w : world) (l : list out) : world :=
  World (quotes_md w) (wisdom_md w) (wisdom_json w) (stdout w) (stderr w ++ l).

Definition set_json (w : world) (d : dict) : world :=
  World (quotes_md w) (wisdom_md w) (Some d) (stdout w) (stderr w).

(** [print(o)] and [print(o, file=sys.stderr)] *)
Definition print (o : out) : M unit := fun w => (Val tt, add_stdout w [o]).

Definition eprint (o : out) : M unit := fun w => (Val tt, add_stderr w [o]).

(** [open(path).readlines()] *)
Definition readlines (file : world -> option (list pystr)) : M (list pystr) :=
  fun w => match file w with
           | Some ls => (Val ls, w)
           | None => (Raised FileNotFoundError, w)
           end.

(** [json.load(open(JSON_PATH))] *)
Definition json_load : M dict :=
  fun w => match wisdom_json w with
           | Some d => (Val d, w)
           | None => (Raised FileNotFoundError, w)
           end.

(** [json.dump(d, open(JSON_PATH, 'w'))] *)
Definition json_dump (d : dict) : M unit := fun w => (Val tt, set_json w d).

(** [os.path.exists(JSON_PATH)] *)
Definition json_exists : M bool :=
  fun w => (Val (match wisdom_json w with Some _ => true | None => false end),
            w).

(** [random.randint(a, b)]: an empty range is a [ValueError]; otherwise
    the result is an integer of the range [a] to [b], both included: the
    one the output [draw] of the generator falls on once reduced into
    the range. Every integer of the range is the result for some
    output, and an output already in a range that starts at 0 is the
    result. *)
Definition randint (draw a b : Z) : M Z :=
  if (b <? a)%Z then raise ValueError
  else ret (a + draw mod (b - a + 1))%Z.

(** The exit status of the process. *)
Definition exit_code {A : Type} (o : outcome A) : Z :=
  match o with
  | Val _ => 0
  | SysExit c => c
  | Raised _ => 1
  end.

End Proc.

Export Proc.


Arguments lit x%_string.

(** ** The script *)

Module Merlin.

#[local] Notation "x <- m ;; k" := (bind m (fun x => k))
  (at level 61, m at next level, right associativity).
#[local] Notation "m ;;; k" := (bind m (fun _ => k))
  (at level 61, right associativity).

Definition URL : pystr := lit "https://github.com/merlinmann/wisdom".

Definition USAGE : pystr :=
  join NL
    [ [];
      lit "USAGE:";
      [];
      lit "     python3 merlin.py            to get a piece of Merlin Mann's wisdom";
      [];
      lit "     python3 merlin.py -u";
      lit "  or python3 merlin.py --update   to update wisdom from after a pull.";
      [] ].

(** The string literal of [is_dash]: hyphen-minus, U+2013 en dash,
    U+2014 em dash, U+2015 horizontal bar, U+2796 heavy minus sign. *)
Definition DASHES : pystr := [45; 8211; 8212; 8213; 10134]%N.

(** [is_dash(c)]: [c in DASHES], a substring test. *)
Definition is_dash (c : pystr) : bool := str_in c DASHES.

(** [is_separator(L)]: iterating over a string yields its characters,
    each a string of length one. *)
Definition is_separator (L : pystr) : bool :=
  (3 <=? length L) && forallb (fun c => is_dash [c]) L.

(** [line and is_dash(line[0])] *)
Definition starts_with_dash (line : pystr) : bool :=
  match line with
  | [] => false
  | c :: _ => is_dash [c]
  end.

(** [demark(L)]: the markers are the asterisk, the underscore and the
    greater-than sign. *)
Definition demark (L : pystr) : pystr :=
  strip (remove_char 62%N (remove_char 95%N (remove_char 42%N L))).

Definition form_quote (lines : list pystr) : pystr := strip (join NL lines).

Definition form_epigraph (lines : list pystr) : pystr := strip (join NL lines).

(** The [for] loop of [get_quotes], from the state ([quotes], [quote]). *)
Fixpoint quotes_loop (lines : list pystr) (quotes quote : list pystr)
  : list pystr * list pystr :=
  match lines with
  | [] => (quotes, quote)
  | line :: rest =>
      let quote := quote ++ [demark line] in
      if starts_with_dash line
      then quotes_loop rest (quotes ++ [form_quote quote]) []
      else quotes_loop rest quotes quote
  end.

(** The lines [get_quotes] keeps: trimmed, headings and separators
    dropped. *)
Definition quote_lines (raw : list pystr) : list pystr :=
  filter (fun L => negb (startswith L (lit "#")) && negb (is_separator L))
         (map strip raw).

Definition WARNING : pystr :=
  lit "WARNING: Last quote did not appear to end with an attribution".

Definition get_quotes : M (list pystr) :=
  raw <- readlines quotes_md ;;
  let lines := quote_lines raw in
  let '(quotes, quote) := quotes_loop lines [] [] in
  (if any quote
   then eprint (Text WARNING) ;;; eprint (Repr quote)
   else ret tt) ;;;
  ret quotes.

(** The [for] loop of [get_epigraphs], from the state ([epigraphs],
    [epigraph]); [break] returns the state. After the emptiness test
    [line[0]] exists, so [starts_with_dash] is [is_dash(line[0])]. *)
Fixpoint epigraphs_loop (lines : list pystr) (epigraphs epigraph : list pystr)
  : list pystr * list pystr :=
  match lines with
  | [] => (epigraphs, epigraph)
  | line :: rest =>
      if startswith line (lit "##") then (epigraphs, epigraph)
      else if negb (truthy line) || is_separator line
      then epigraphs_loop rest epigraphs epigraph
      else if starts_with_dash line
      then epigraphs_loop rest
             (epigraphs ++ [form_epigraph (epigraph ++ [demark line])]) []
      else epigraphs_loop rest epigraphs (epigraph ++ [demark line])
  end.

Definition get_epigraphs (lines : list pystr) (section : pystr)
  : pystr * list pystr :=
  let '(epigraphs, epigraph) := epigraphs_loop lines [] [] in
  (section,
   match epigraph with
   | [] => epigraphs
   | _ :: _ => epigraphs ++ [form_epigraph epigraph]
   end).

Definition MANAGEMENT : pystr := lit "*The Management*".

(** The [for] loop of [get_general_wisdom]. *)
Fixpoint general_loop (lines : list pystr) (items : list pystr) : list pystr :=
  match lines with
  | [] => items
  | line :: rest =>
      if startswith line (lit "##") then items
      else if is_separator line || endswith line MANAGEMENT
      then general_loop rest items
      else if starts_with_dash line
      then general_loop rest (items ++ [demark (strip (skipn 1 line))])
      else general_loop rest items
  end.

Definition get_general_wisdom (lines : list pystr) (section : pystr)
  : pystr * list pystr :=
  (section, general_loop lines []).

Definition extract_wisdom (lines : list pystr) (section : pystr)
  : pystr * list pystr :=
  let section := strip (skipn 2 section) in
  if str_eqb section (lit "Epigraphs")
  then get_epigraphs lines section
  else get_general_wisdom lines section.

(** [(i, L) for i, L in enumerate(lines) if L.startswith('##')] *)
Definition subheads_of (lines : list pystr) : list (nat * pystr) :=
  filter (fun p => startswith (snd p) (lit "##")) (PyList.enumerate lines).

(** One turn of the loop of [get_wisdom]. *)
Definition add_section (lines : list pystr) (wisdom : dict)
           (sub : nat * pystr) : dict :=
  let '(i, section) := sub in
  let '(kind, content) := extract_wisdom (skipn (i + 1) lines) section in
  if mem kind wisdom
  then extend wisdom kind content
  else set wisdom kind content.

(** [get_wisdom] after the call of [get_wisdom_lines]. *)
Definition wisdom_of_lines (lines : list pystr) : dict :=
  fold_left (add_section lines) (subheads_of lines) [].

(** [subheads[i]] *)
Definition getitem {A : Type} (l : list A) (i : Z) : M A :=
  match PyList.index l i with
  | Some a => ret a
  | None => raise IndexError
  end.

Section Installation.

(** The path of wisdom.md, computed from the place of the script. *)
Variable WISDOM_PATH : pystr.

(** [textwrap.wrap] with its default width. *)
Variable wrap : pystr -> list pystr.

Definition parse_failed : M unit :=
  eprint (Text (join (lit " ") [lit "ERROR: Failed to parse"; WISDOM_PATH])) ;;;
  sys_exit 1.

Definition get_wisdom_lines : M (list pystr) :=
  raw <- readlines wisdom_md ;;
  let lines := map strip raw in
  let subheads := subheads_of lines in
  (if length subheads <? 3 then parse_failed else ret tt) ;;;
  last <- getitem subheads (-1) ;;
  let lasthead := snd last in
  pen <- getitem subheads (-2) ;;
  let penultimate := snd pen in
  (if negb (startswith lasthead (lit "## Licensing")
            && startswith penultimate (lit "## About"))
   then parse_failed else ret tt) ;;;
  first <- getitem subheads 0 ;;
  let startline := fst first in
  let endline := fst pen in
  let lines := PyList.slice lines startline endline in
  ret (filter (fun L => negb (startswith L (lit "<"))
                        && negb (startswith L (lit "!"))) lines).

Definition get_wisdom : M dict :=
  lines <- get_wisdom_lines ;;
  ret (wisdom_of_lines lines).

Definition update : M unit :=
  quotes <- get_quotes ;;
  wisdom <- get_wisdom ;;
  let wisdom := set wisdom (lit "quotes") quotes in
  json_dump wisdom.

Definition check_json_exists : bool := false.

(** [sum(len(v) for k, v in wisdom.items())] *)
Definition total (wisdom : dict) : Z :=
  fold_right (fun kv acc => (Z.of_nat (length (snd kv)) + acc)%Z) 0%Z wisdom.

(** What [merlin] prints first for an item. *)
Definition format (item : pystr) : pystr :=
  let lines := splitlines item in
  let content := map (fun L => join NL (wrap L)) lines in
  join NL content.

(** What [merlin] prints second: ['\nFrom %s, %s\n' % (k, URL)]. *)
Definition credit (k : pystr) : pystr :=
  NL ++ lit "From " ++ k ++ lit ", " ++ URL ++ NL.

(** The [for] loop of [merlin] over [wisdom.items()]. *)
Fixpoint merlin_loop (items_of : dict) (i : Z) : M unit :=
  match items_of with
  | [] => ret tt
  | (k, items) :: rest =>
      let N := Z.of_nat (length items) in
      if (i <? N)%Z then
        item <- getitem items i ;;
        print (Text (format item)) ;;;
        print (Text (credit k)) ;;;
        sys_exit 1
      else merlin_loop rest (i - N)
  end.

(** [merlin()], where [draw] is what the generator yields. *)
Definition merlin (draw : Z) : M unit :=
  wisdom <- json_load ;;
  let n := total wisdom in
  i <- randint draw 0 (n - 1) ;;
  merlin_loop wisdom i.

(** The body under [if __name__ == '__main__'], for [sys.argv = argv]. *)
Definition main (argv : list pystr) (draw : Z) : M unit :=
  (if 1 <? length argv then
     if (length argv =? 2)
        && (str_eqb (nth 1 argv []) (lit "-u")
            || str_eqb (nth 1 argv []) (lit "--update"))
     then update
     else eprint (Text USAGE) ;;; sys_exit 1
   else ret tt) ;;;
  present <- json_exists ;;
  (if negb present then update else ret tt) ;;;
  merlin draw.

End Installation.

End Merlin.

Export Merlin.

(** ** Vocabulary of the properties *)

Module Spec.

(** The five dash characters, by name. *)
Definition HYPHEN_MINUS : char := 45%N.
Definition EN_DASH : char := 8211%N.
Definition EM_DASH : char := 8212%N.
Definition HORIZONTAL_BAR : char := 8213%N.
Definition HEAVY_MINUS : char := 10134%N.

(** The lines of a section: those before the next line that starts a
    heading. *)
Fixpoint before_heading (lines : list pystr) : list pystr :=
  match lines with
  | [] => []
  | L :: rest =>
      if startswith L (lit "##") then [] else L :: before_heading rest
  end.

(** A line the general-wisdom strategy turns into an item: its first
    character is a dash, and it is neither a separator nor a line that
    ends with the footer marker. *)
Definition is_item (L : pystr) : bool :=
  starts_with_dash L && negb (is_separator L) && negb (endswith L MANAGEMENT).

(** The item of such a line. *)
Definition item_text (L : pystr) : pystr := demark (strip (skipn 1 L)).

(** The (name, items) pairs of the sections of a body, in the order of
    their headings. *)
Definition sections_of (lines : list pystr) : list (pystr * list pystr) :=
  map (fun sub : nat * pystr =>
         extract_wisdom (skipn (fst sub + 1) lines) (snd sub))
      (subheads_of lines).

(** The items of all sections called [k], in the order met. *)
Definition collect (k : pystr) (secs : list (pystr * list pystr)) : list pystr :=
  concat (map snd (filter (fun s => str_eqb (fst s) k) secs)).

Definition occurs (k : pystr) (secs : list (pystr * list pystr)) : bool :=
  existsb (fun s => str_eqb (fst s) k) secs.

(** One turn of the loop of [get_wisdom], on the pair a section gives. *)
Definition add_items (wisdom : dict) (sec : pystr * list pystr) : dict :=
  if mem (fst sec) wisdom
  then extend wisdom (fst sec) (snd sec)
  else set wisdom (fst sec) (snd sec).

(** The items of a dictionary in insertion order, each with its
    category. *)
Definition flatten (d : dict) : list (pystr * pystr) :=
  flat_map (fun kv => map (pair (fst kv)) (snd kv)) d.

(** The name of the section a heading line opens, as [extract_wisdom]
    reads it. *)
Definition section_name (heading : pystr) : pystr := strip (skipn 2 heading).

(** The shape [get_wisdom_lines] accepts: three headings or more, the
    last one starting with [## Licensing] and the one before it with
    [## About]. *)
Definition conforming (lines : list pystr) : bool :=
  match rev (subheads_of lines) with
  | (_, lasthead) :: (_, penultimate) :: _ :: _ =>
      startswith lasthead (lit "## Licensing")
      && startswith penultimate (lit "## About")
  | _ => false
  end.

(** The shape in the words of the specification: three headings or
    more, the last two being sections named exactly About and
    Licensing. *)
Definition conforming_exactly (lines : list pystr) : bool :=
  match rev (subheads_of lines) with
  | (_, lasthead) :: (_, penultimate) :: _ :: _ =>
      str_eqb (section_name lasthead) (lit "Licensing")
      && str_eqb (section_name penultimate) (lit "About")
  | _ => false
  end.

(** The body of a conforming document: from the first heading up to the
    last but one, without the lines that start an HTML tag or an image. *)
Definition body_of (lines : list pystr) : list pystr :=
  match subheads_of lines, rev (subheads_of lines) with
  | (startline, _) :: _, _ :: (endline, _) :: _ =>
      filter (fun L => negb (startswith L (lit "<"))
                       && negb (startswith L (lit "!")))
             (PyList.slice lines startline endline)
  | _, _ => []
  end.

(** The diagnostic of [parse_failed]. *)
Definition parse_error (path : pystr) : out :=
  Text (lit "ERROR: Failed to parse " ++ path).

(** The world after the warning of [get_quotes], if any, for the
    quotations file [qraw]. *)
Definition warned (w : world) (qraw : list pystr) : world :=
  let quote := snd (quotes_loop (quote_lines qraw) [] []) in
  if any quote then add_stderr w [Text WARNING; Repr quote] else w.

(** The dictionary a refresh builds from the quotations file [qraw] and
    a conforming wisdom file [wraw]. *)
Definition refreshed (qraw wraw : list pystr) : dict :=
  set (wisdom_of_lines (body_of (map strip wraw))) (lit "quotes")
      (fst (quotes_loop (quote_lines qraw) [] [])).

End Spec.

Export Spec.

(** ** Sample inputs *)

Module Samples.

(** The quotations file of the example: a heading, one line of text, a
    rule and an attribution, as [readlines] returns them. *)
Definition quotes_example : list pystr :=
  [ lit "# Quotes" ++ NL;
    lit "Quote line one" ++ NL;
    lit "---" ++ NL;
    lit "- Attribution" ++ NL ].

Definition world_of_quotes (raw : list pystr) : world :=
  World (Some raw) None None [] [].

(** A complete quote followed by an orphan line. *)
Definition quotes_orphan_pre : list pystr :=
  [ lit "Quote line one" ++ NL; lit "- Attribution" ++ NL ].

Definition quotes_orphan_tail : list pystr := [ lit "Orphan line" ++ NL ].

(** A wisdom document with two sections called Misc, apart. *)
Definition wisdom_misc : list pystr :=
  [ lit "# Wisdom" ++ NL;
    lit "## Misc" ++ NL;
    lit "- p" ++ NL;
    lit "## Other" ++ NL;
    lit "- x" ++ NL;
    lit "## Misc" ++ NL;
    lit "- q" ++ NL;
    lit "## About" ++ NL;
    lit "## Licensing" ++ NL ].

Definition world_of_wisdom (raw : list pystr) : world :=
  World None (Some raw) None [] [].

(** A wisdom document whose last two sections have longer names than
    About and Licensing. *)
Definition wisdom_long_names : list pystr :=
  [ lit "## Advice" ++ NL;
    lit "- Be kind" ++ NL;
    lit "## About this document" ++ NL;
    lit "## Licensing terms" ++ NL ].

(** A wisdom document with two headings only. *)
Definition wisdom_two_headings : list pystr :=
  [ lit "## About" ++ NL; lit "## Licensing" ++ NL ].

Definition SAMPLE_PATH : pystr := lit "/opt/wisdom/wisdom.md".

(** [textwrap.wrap] on lines too short to be folded. *)
Definition sample_wrap (L : pystr) : list pystr :=
  match L with [] => [] | _ :: _ => [L] end.

(** A cache with the categories A, holding [x], and B, holding [y] and
    [z]. *)
Definition store_ab : dict :=
  [ (lit "A", [lit "x"]); (lit "B", [lit "y"; lit "z"]) ].

(** A cache without items: what a refresh leaves when neither document
    has any. *)
Definition store_empty : dict := [ (lit "quotes", []) ].

Definition world_of_cache (d : dict) : world :=
  World None None (Some d) [] [].

(** Both documents in place and no cache yet. *)
Definition world_fresh : world :=
  World (Some quotes_example) (Some wisdom_misc) None [] [].

End Samples.

Export Samples.

(** ** More vocabulary *)

Module Spec2.

(** A line of text inside an epigraph: not blank, not a heading, and
    without a leading dash (so not a separator either). *)
Definition plain_line (L : pystr) : bool :=
  truthy L && negb (startswith L (lit "##")) && negb (starts_with_dash L).

(** The heading lines among [lines]. *)
Definition headings (lines : list pystr) : list pystr :=
  filter (fun L => startswith L (lit "##")) lines.

(** The comprehension of [subheads_of], with [enumerate] started at
    [n]. *)
Definition subheads_from (n : nat) (l : list pystr) : list (nat * pystr) :=
  filter (fun p : nat * pystr => startswith (snd p) (lit "##"))
         (combine (seq n (length l)) l).

(** The distinct names of [l], each at the place of its first
    occurrence. *)
Fixpoint distinct (l : list pystr) : list pystr :=
  match l with
  | [] => []
  | k :: l' => k :: filter (fun x => negb (str_eqb x k)) (distinct l')
  end.

(** [x] is none of the names [K]. *)
Definition notin (K : list pystr) (x : pystr) : bool :=
  negb (existsb (str_eqb x) K).

(** All items of a dictionary, category after category. *)
Definition all_items (d : dict) : list pystr := concat (map snd d).

(** No character of [L] is a line boundary of [str.splitlines]. *)
Definition one_line (L : pystr) : bool :=
  forallb (fun c => negb (N.eqb c 13) && negb (is_linebreak c)) L.

End Spec2.

Export Spec2.

(** ** More sample inputs *)

Module Samples2.

(** A conforming wisdom document without a single item. *)
Definition wisdom_no_items : list pystr :=
  [ lit "## Advice" ++ NL; lit "## About" ++ NL; lit "## Licensing" ++ NL ].

(** Both documents in place, neither with an item, and no cache. *)
Definition world_no_items : world :=
  World (Some []) (Some wisdom_no_items) None [] [].

End Samples2.

Export Samples2.

(** ** Vocabulary in the words of the specification *)

Module Spec3.

(** What the selector shows of an item: each line of the item wrapped on
    its own, the wrapped lines joined by line breaks. *)
Definition shown (wrap : pystr -> list pystr) (item : pystr) : pystr :=
  join NL (map (fun L => join NL (wrap L)) (splitlines item)).

(** The attribution the selector prints after it: a blank line, the
    line naming the category and the address of the collection, a blank
    line. *)
Definition attribution (k : pystr) : pystr :=
  NL ++ lit "From " ++ k ++ lit ", https://github.com/merlinmann/wisdom"
     ++ NL.

(** The run that prints the item [snd p] of the category [fst p] and
    exits with code 1. *)
Definition selection (wrap : pystr -> list pystr) (w : world)
           (p : pystr * pystr) : outcome unit * world :=
  (SysExit 1,
   add_stdout w [Text (shown wrap (snd p)); Text (attribution (fst p))]).

(** The item of a bullet line: the line without its first character,
    trimmed, then without asterisks, underscores and greater-than signs,
    trimmed again. *)
Definition bare_item (L : pystr) : pystr :=
  strip (remove_char 62%N
           (remove_char 95%N (remove_char 42%N (strip (skipn 1 L))))).

(** The outputs of the generator over one period of [n]: 0 to [n - 1]. *)
Definition draws (n : nat) : list Z := map Z.of_nat (seq 0 n).

End Spec3.

Export Spec3.

Module Samples3.

(** Both documents in place, and a cache left by an earlier run on other
    documents. *)
Definition world_stale : world :=
  World (Some quotes_example) (Some wisdom_misc) (Some store_ab) [] [].

(** A section with markup, a rule, a blank line, a footer, and the
    heading and first bullet of the next section. *)
Definition bullets_with_markup : list pystr :=
  [ lit "- *Item* _one_";
    lit "-> two";
    lit "---";
    [];
    lit "- x *The Management*";
    lit "## Next";
    lit "- lost" ].

End Samples3.

Export Samples3.

(** * Properties *)

(** ** Strings *)

Lemma str_eqb_eq (a b : pystr) : str_eqb a b = true <-> a = b.
Proof.
  unfold str_eqb. destruct (list_eq_dec N.eq_dec a b); split;
    intros; congruence.
Qed.

Lemma str_eqb_refl (a : pystr) : str_eqb a a = true.
Proof. now apply str_eqb_eq. Qed.

Lemma str_eqb_neq (a b : pystr) : str_eqb a b = false <-> a <> b.
Proof.
  unfold str_eqb. destruct (list_eq_dec N.eq_dec a b); split;
    intros; congruence.
Qed.

Lemma str_eqb_sym (a b : pystr) : str_eqb a b = str_eqb b a.
Proof.
  destruct (str_eqb b a) eqn:E.
  - apply str_eqb_eq in E. subst. apply str_eqb_refl.
  - apply str_eqb_neq in E. apply str_eqb_neq. congruence.
Qed.

(** ** The streams *)

Lemma add_stderr_add_stderr (w : world) (a b : list out) :
  add_stderr (add_stderr w a) b = add_stderr w (a ++ b).
Proof. unfold add_stderr; simpl. now rewrite app_assoc. Qed.

Lemma add_stdout_add_stdout (w : world) (a b : list out) :
  add_stdout (add_stdout w a) b = add_stdout w (a ++ b).
Proof. unfold add_stdout; simpl. now rewrite app_assoc. Qed.

(** ** The classifier *)

Lemma is_dash_char (c : char) :
  is_dash [c] = true <->
  c = HYPHEN_MINUS \/ c = EN_DASH \/ c = EM_DASH \/ c = HORIZONTAL_BAR
  \/ c = HEAVY_MINUS.
Proof.
  unfold is_dash, DASHES, HYPHEN_MINUS, EN_DASH, EM_DASH, HORIZONTAL_BAR,
    HEAVY_MINUS.
  cbn [str_in startswith].
  rewrite !orb_true_iff, !andb_true_iff, !N.eqb_eq.
  intuition discriminate.
Qed.

(** C9. [is_dash] holds of a character exactly when it is the
    hyphen-minus, the en dash, the em dash, the horizontal bar or the
    heavy minus sign; [is_separator] holds of a line exactly when it has
    three characters or more and all of them are dashes. So a line of
    three or more dashes of any kinds is a separator, and a line that is
    shorter or has another character is not. *)
Theorem is_dash_is_separator_spec :
  (forall c : char,
      is_dash [c] = true <->
      c = HYPHEN_MINUS \/ c = EN_DASH \/ c = EM_DASH \/ c = HORIZONTAL_BAR
      \/ c = HEAVY_MINUS)
  /\ (forall L : pystr,
         is_separator L = true <->
         3 <= length L /\ (forall c, In c L -> is_dash [c] = true))
  /\ (forall L : pystr, length L < 3 -> is_separator L = false)
  /\ (forall (L : pystr) (c : char),
         In c L -> is_dash [c] = false -> is_separator L = false).
Proof.
  assert (Hsep : forall L : pystr,
             is_separator L = true <->
             3 <= length L /\ (forall c, In c L -> is_dash [c] = true)).
  { intro L. unfold is_separator.
    rewrite andb_true_iff, Nat.leb_le, forallb_forall. tauto. }
  split; [exact is_dash_char|]. split; [exact Hsep|]. split.
  - intros L Hlen. destruct (is_separator L) eqn:E; [|reflexivity].
    apply Hsep in E. lia.
  - intros L c Hin Hc. destruct (is_separator L) eqn:E; [|reflexivity].
    apply Hsep in E. destruct E as [_ E]. rewrite (E c Hin) in Hc.
    discriminate.
Qed.

(** Separators mix the kinds of dash, as in a line of one of each. *)
Example is_separator_mixed :
  is_separator [HYPHEN_MINUS; EN_DASH; EM_DASH; HORIZONTAL_BAR; HEAVY_MINUS]
  = true
  /\ is_separator (lit "--") = false
  /\ is_separator (lit "--- ") = false.
Proof. repeat split; reflexivity. Qed.

(** ** The quote parser *)

Section Quotes.

Lemma quote_lines_app (a b : list pystr) :
  quote_lines (a ++ b) = quote_lines a ++ quote_lines b.
Proof. unfold quote_lines. now rewrite map_app, filter_app. Qed.

(** The loop over two runs of lines is the loop over the second run,
    from the state the first run leaves. *)
Lemma quotes_loop_app (a b quotes quote : list pystr) :
  quotes_loop (a ++ b) quotes quote =
  quotes_loop b (fst (quotes_loop a quotes quote))
                (snd (quotes_loop a quotes quote)).
Proof.
  revert quotes quote.
  induction a as [|line a IH]; intros quotes quote; [reflexivity|].
  cbn [app quotes_loop].
  destruct (starts_with_dash line); apply IH.
Qed.

(** Lines without a leading dash only grow the pending buffer. *)
Lemma quotes_loop_no_dash (tail quotes quote : list pystr) :
  (forall L, In L tail -> starts_with_dash L = false) ->
  quotes_loop tail quotes quote = (quotes, quote ++ map demark tail).
Proof.
  revert quote.
  induction tail as [|line tail IH]; intros quote Hno.
  - cbn. now rewrite app_nil_r.
  - cbn [quotes_loop map].
    rewrite (Hno line (or_introl eq_refl)).
    rewrite IH by (intros L HL; apply Hno; now right).
    now rewrite <- app_assoc.
Qed.

(** The completed quotes only grow along the loop. *)
Lemma quotes_loop_extends (lines quotes quote : list pystr) :
  exists more, fst (quotes_loop lines quotes quote) = quotes ++ more.
Proof.
  revert quotes quote.
  induction lines as [|line lines IH]; intros quotes quote.
  - exists []. cbn. now rewrite app_nil_r.
  - cbn [quotes_loop]. destruct (starts_with_dash line).
    + destruct (IH (quotes ++ [form_quote (quote ++ [demark line])]) [])
        as [more Hm].
      exists (form_quote (quote ++ [demark line]) :: more).
      rewrite Hm. now rewrite <- app_assoc.
    + apply IH.
Qed.

(** What [get_quotes] does once the file is read. *)
Lemma get_quotes_run (w : world) (raw : list pystr) :
  quotes_md w = Some raw ->
  get_quotes w =
  (Val (fst (quotes_loop (quote_lines raw) [] [])),
   if any (snd (quotes_loop (quote_lines raw) [] []))
   then add_stderr w
          [Text WARNING; Repr (snd (quotes_loop (quote_lines raw) [] []))]
   else w).
Proof.
  intro Hfile. unfold get_quotes, bind, readlines. rewrite Hfile.
  destruct (quotes_loop (quote_lines raw) [] []) as [quotes quote].
  cbn [fst snd]. destruct (any quote); [|reflexivity].
  unfold eprint, ret. now rewrite add_stderr_add_stderr.
Qed.

(** C3, as amended. For the lines: a heading, [Quote line one], a
    separator, [- Attribution], the quote parser returns the single
    quote [Quote line one] / [- Attribution]: the heading and the
    separator are dropped and the attribution line keeps its dash.
    Nothing is written to either stream. *)
Theorem get_quotes_attribution_keeps_dash
        (w : world) (raw : list pystr) (heading separator : pystr) :
  quotes_md w = Some raw ->
  map strip raw =
    [heading; lit "Quote line one"; separator; lit "- Attribution"] ->
  startswith heading (lit "#") = true ->
  is_separator separator = true ->
  get_quotes w =
    (Val [lit "Quote line one" ++ NL ++ lit "- Attribution"], w).
Proof.
  intros Hfile Hlines Hh Hs.
  rewrite (get_quotes_run w raw Hfile).
  unfold quote_lines. rewrite Hlines. cbn [filter].
  rewrite Hh, Hs. cbn [negb andb]. rewrite andb_false_r.
  reflexivity.
Qed.

End Quotes.

Lemma get_quotes_attribution_keeps_dash_witness :
  get_quotes (world_of_quotes quotes_example) =
    (Val [lit "Quote line one" ++ NL ++ lit "- Attribution"],
     world_of_quotes quotes_example).
Proof.
  apply (get_quotes_attribution_keeps_dash
           (world_of_quotes quotes_example) quotes_example
           (lit "# Quotes") (lit "---"));
    reflexivity.
Defined.

(** C3, as stated, fails: on the example the single quote ends in the
    line [- Attribution], so it is not [Quote line one] / [Attribution]. *)
Lemma get_quotes_attribution_not_stripped :
  fst (get_quotes (world_of_quotes quotes_example)) =
    Val [lit "Quote line one" ++ NL ++ lit "- Attribution"]
  /\ fst (get_quotes (world_of_quotes quotes_example)) <>
       Val [lit "Quote line one" ++ NL ++ lit "Attribution"].
Proof. split; [reflexivity|]. vm_compute. discriminate. Qed.

(** C5. Take the lines of the file as a first run followed by a tail
    none of whose kept lines starts with a dash. When the buffer left at
    the end (what the first run left pending, then the tail, markup
    stripped) has a non-empty line, [get_quotes] writes the warning and
    the [repr] of that buffer to the error stream, and returns normally
    the quotes the first run completed, and nothing for the buffer. *)
Theorem get_quotes_dangling_discarded (w : world) (pre tail : list pystr) :
  quotes_md w = Some (pre ++ tail) ->
  (forall L, In L (quote_lines tail) -> starts_with_dash L = false) ->
  any (snd (quotes_loop (quote_lines pre) [] [])
       ++ map demark (quote_lines tail)) = true ->
  get_quotes w =
    (Val (fst (quotes_loop (quote_lines pre) [] [])),
     add_stderr w
       [Text WARNING;
        Repr (snd (quotes_loop (quote_lines pre) [] [])
              ++ map demark (quote_lines tail))]).
Proof.
  intros Hfile Hno Hany.
  rewrite (get_quotes_run w _ Hfile).
  rewrite quote_lines_app, quotes_loop_app.
  rewrite (quotes_loop_no_dash _ _ _ Hno).
  cbn [fst snd]. now rewrite Hany.
Qed.

Lemma get_quotes_dangling_discarded_witness :
  get_quotes (world_of_quotes (quotes_orphan_pre ++ quotes_orphan_tail)) =
    (Val [lit "Quote line one" ++ NL ++ lit "- Attribution"],
     add_stderr (world_of_quotes (quotes_orphan_pre ++ quotes_orphan_tail))
       [Text WARNING; Repr [lit "Orphan line"]]).
Proof.
  apply (get_quotes_dangling_discarded
           (world_of_quotes (quotes_orphan_pre ++ quotes_orphan_tail))
           quotes_orphan_pre quotes_orphan_tail).
  - reflexivity.
  - intros L HL. vm_compute in HL. destruct HL as [<-|[]]. reflexivity.
  - reflexivity.
Defined.

(** ** The two strategies of the section parser *)

Section Strategies.

Lemma general_loop_spec (lines items : list pystr) :
  general_loop lines items =
  items ++ map item_text (filter is_item (before_heading lines)).
Proof.
  revert items.
  induction lines as [|line lines IH]; intro items.
  - cbn. now rewrite app_nil_r.
  - cbn [general_loop before_heading].
    destruct (startswith line (lit "##")).
    + cbn. now rewrite app_nil_r.
    + cbn [filter]. unfold is_item at 1.
      destruct (is_separator line); cbn [orb].
      * rewrite andb_false_r. cbn [andb]. apply IH.
      * destruct (endswith line MANAGEMENT); cbn [negb].
        -- rewrite andb_false_r. apply IH.
        -- rewrite !andb_true_r.
           destruct (starts_with_dash line); [|apply IH].
           rewrite IH. cbn [map]. unfold item_text at 2.
           now rewrite <- app_assoc.
Qed.

(** The lines of a section that holds no heading are all its lines. *)
Lemma before_heading_all (lines : list pystr) :
  (forall L, In L lines -> startswith L (lit "##") = false) ->
  before_heading lines = lines.
Proof.
  induction lines as [|line lines IH]; intro Hno; [reflexivity|].
  cbn [before_heading]. rewrite (Hno line (or_introl eq_refl)).
  f_equal. apply IH. intros L HL. apply Hno. now right.
Qed.

(** A line that is blank, a separator, a footer line, or that does not
    start with a dash gives no item. *)
Lemma is_item_false (L : pystr) :
  L = [] \/ is_separator L = true \/ endswith L MANAGEMENT = true
  \/ starts_with_dash L = false ->
  is_item L = false.
Proof.
  unfold is_item. intros [->|[H|[H|H]]]; [reflexivity| | |]; rewrite H;
    cbn; rewrite ?andb_false_r; reflexivity.
Qed.

(** C8, as amended. The general-wisdom strategy reads its lines up to
    the first one that starts a heading, and returns one item for each
    of those lines that starts with a dash and is neither a separator
    nor a footer line: that line without its first character, trimmed,
    then without the three markers and trimmed again. Every other line
    before the heading (blank, separator, footer, continuation text)
    gives nothing, and so does every line from the heading on. When no
    line starts a heading, all lines are read. So [- Item one],
    [continuation text], [- Item two] give the items [Item one] and
    [Item two], and markup is taken out of the items. *)
Theorem get_general_wisdom_spec :
  (forall (lines : list pystr) (section : pystr),
      get_general_wisdom lines section =
      (section, map bare_item (filter is_item (before_heading lines))))
  /\ (forall L : pystr,
         is_item L = true <->
         starts_with_dash L = true /\ is_separator L = false
         /\ endswith L MANAGEMENT = false)
  /\ (forall lines : list pystr,
         (forall L, In L lines -> startswith L (lit "##") = false) ->
         before_heading lines = lines)
  /\ (forall (pre post : list pystr) (heading : pystr),
         startswith heading (lit "##") = true ->
         (forall L, In L pre -> startswith L (lit "##") = false) ->
         before_heading (pre ++ heading :: post) = pre)
  /\ (forall section : pystr,
         get_general_wisdom
           [lit "- Item one"; lit "continuation text"; lit "- Item two"]
           section
         = (section, [lit "Item one"; lit "Item two"]))
  /\ (forall section : pystr,
         get_general_wisdom bullets_with_markup section
         = (section, [lit "Item one"; lit "two"])).
Proof.
  split; [|split; [|split; [|split; [|split]]]].
  - intros lines section. unfold get_general_wisdom.
    rewrite general_loop_spec. reflexivity.
  - intro L. unfold is_item.
    rewrite !andb_true_iff, !negb_true_iff. tauto.
  - exact before_heading_all.
  - intros pre post heading Hh Hpre.
    induction pre as [|L pre IH]; cbn [app before_heading].
    + now rewrite Hh.
    + rewrite (Hpre L (or_introl eq_refl)). f_equal.
      apply IH. intros L' HL'. apply Hpre. now right.
  - intro section. reflexivity.
  - intro section. reflexivity.
Qed.

(** C8, as stated, fails: of the lines [- p], [## Other], [- x] the
    strategy returns the item [p] alone, though [- x] starts with a dash
    and is no separator, footer or blank line; one item for each such
    line would be [p] and [x]. *)
Lemma get_general_wisdom_stops_at_heading :
  get_general_wisdom [lit "- p"; lit "## Other"; lit "- x"] (lit "Misc")
  = (lit "Misc", [lit "p"])
  /\ is_item (lit "- x") = true
  /\ map bare_item (filter is_item [lit "- p"; lit "## Other"; lit "- x"])
     = [lit "p"; lit "x"].
Proof. repeat split. Qed.

(** A heading line does not start with a dash, a separator does. *)
Lemma heading_no_dash (L : pystr) :
  startswith L (lit "##") = true -> starts_with_dash L = false.
Proof.
  destruct L as [|a L]; [reflexivity|].
  change (lit "##") with [35%N; 35%N].
  cbn [startswith]. intro H. apply andb_true_iff in H.
  destruct H as [H _]. apply N.eqb_eq in H. subst a. reflexivity.
Qed.

Lemma separator_dash (L : pystr) :
  is_separator L = true -> starts_with_dash L = true.
Proof.
  unfold is_separator. intro H. apply andb_true_iff in H.
  destruct H as [Hlen Hall]. destruct L as [|a L]; [discriminate Hlen|].
  cbn [forallb] in Hall. apply andb_true_iff in Hall. now destruct Hall.
Qed.

Lemma dash_no_heading (L : pystr) :
  starts_with_dash L = true -> startswith L (lit "##") = false.
Proof.
  intro Hd. destruct (startswith L (lit "##")) eqn:E; [|reflexivity].
  apply heading_no_dash in E. congruence.
Qed.

(** Blank lines and separators leave the state of the epigraph loop as
    it is: they close nothing. *)
Lemma epigraphs_loop_skip (pre post : list pystr) (line : pystr)
      (epigraphs epigraph : list pystr) :
  line = [] \/ is_separator line = true ->
  epigraphs_loop (pre ++ line :: post) epigraphs epigraph =
  epigraphs_loop (pre ++ post) epigraphs epigraph.
Proof.
  intro Hline. revert epigraphs epigraph.
  induction pre as [|L pre IH]; intros epigraphs epigraph.
  - cbn [app epigraphs_loop].
    assert (Hh : startswith line (lit "##") = false).
    { destruct Hline as [->|Hsep]; [reflexivity|].
      now apply dash_no_heading, separator_dash. }
    rewrite Hh.
    destruct Hline as [->|Hsep]; [reflexivity|].
    rewrite Hsep. now rewrite orb_true_r.
  - cbn [app epigraphs_loop].
    destruct (startswith L (lit "##")); [reflexivity|].
    destruct (negb (truthy L) || is_separator L); [apply IH|].
    destruct (starts_with_dash L); apply IH.
Qed.


(** A block left open at the end of the lines is kept. *)
Example get_epigraphs_trailing_block (section : pystr) :
  get_epigraphs [lit "A"; lit "B"; lit "---"; []] section
  = (section, [lit "A" ++ NL ++ lit "B"])
  /\ get_epigraphs [lit "C"; lit "D"] section
     = (section, [lit "C" ++ NL ++ lit "D"]).
Proof. split; reflexivity. Qed.

(** C2, at the input [A], [---], [B]: the separator closes nothing, and
    the epigraph strategy returns the one epigraph [A] / [B] where the
    claim has the two epigraphs [A] and [B]. *)
Theorem get_epigraphs_separator_closes_nothing (section : pystr) :
  get_epigraphs [lit "A"; lit "---"; lit "B"] section
  = (section, [lit "A" ++ NL ++ lit "B"])
  /\ get_epigraphs [lit "A"; lit "---"; lit "B"] section
     <> (section, [lit "A"; lit "B"]).
Proof. split; [reflexivity|]. cbv. intro H. inversion H. Qed.

End Strategies.

(** ** Dictionaries *)

Section Dictionaries.

Lemma get_set (d : dict) (k k' : pystr) (v : list pystr) :
  get (set d k v) k' = if str_eqb k k' then Some v else get d k'.
Proof.
  induction d as [|[k1 v1] d IH]; cbn [set get].
  - reflexivity.
  - destruct (str_eqb k1 k) eqn:E1; cbn [get].
    + apply str_eqb_eq in E1. subst k1. now destruct (str_eqb k k').
    + rewrite IH. destruct (str_eqb k1 k') eqn:E2; [|reflexivity].
      apply str_eqb_eq in E2. subst k1.
      rewrite str_eqb_sym in E1. now rewrite E1.
Qed.

Lemma get_extend (d : dict) (k k' : pystr) (c : list pystr) :
  get (extend d k c) k' =
  if str_eqb k k' then option_map (fun v => v ++ c) (get d k') else get d k'.
Proof.
  induction d as [|[k1 v1] d IH]; cbn [extend get].
  - now destruct (str_eqb k k').
  - destruct (str_eqb k1 k) eqn:E1; cbn [get].
    + apply str_eqb_eq in E1. subst k1. now destruct (str_eqb k k').
    + rewrite IH. destruct (str_eqb k1 k') eqn:E2; [|reflexivity].
      apply str_eqb_eq in E2. subst k1.
      rewrite str_eqb_sym in E1. now rewrite E1.
Qed.

Lemma keys_extend (d : dict) (k : pystr) (c : list pystr) :
  keys (extend d k c) = keys d.
Proof.
  unfold keys. induction d as [|[k1 v1] d IH]; cbn [extend map fst].
  - reflexivity.
  - destruct (str_eqb k1 k); cbn [map fst]; [reflexivity|]. now rewrite IH.
Qed.

Lemma mem_keys (d : dict) (k : pystr) : mem k d = true <-> In k (keys d).
Proof.
  unfold mem, keys. induction d as [|[k1 v1] d IH]; cbn [get map fst In].
  - split; [discriminate|tauto].
  - destruct (str_eqb k1 k) eqn:E.
    + apply str_eqb_eq in E. tauto.
    + apply str_eqb_neq in E. rewrite IH. tauto.
Qed.

Lemma keys_set_new (d : dict) (k : pystr) (v : list pystr) :
  mem k d = false -> keys (set d k v) = keys d ++ [k].
Proof.
  unfold mem, keys. induction d as [|[k1 v1] d IH]; cbn [set get map fst app].
  - reflexivity.
  - destruct (str_eqb k1 k); [discriminate|].
    intro H. cbn [map fst]. now rewrite IH.
Qed.

Lemma add_items_NoDup (d : dict) (sec : pystr * list pystr) :
  NoDup (keys d) -> NoDup (keys (add_items d sec)).
Proof.
  intro Hd. unfold add_items. destruct (mem (fst sec) d) eqn:E.
  - now rewrite keys_extend.
  - rewrite keys_set_new by assumption.
    apply NoDup_app; [assumption|constructor; [tauto|constructor]|].
    intros k Hk [<-|[]]. apply mem_keys in Hk. congruence.
Qed.

Lemma fold_add_items_NoDup (secs : list (pystr * list pystr)) (d : dict) :
  NoDup (keys d) -> NoDup (keys (fold_left add_items secs d)).
Proof.
  revert d. induction secs as [|sec secs IH]; intros d Hd; [exact Hd|].
  cbn [fold_left]. apply IH. now apply add_items_NoDup.
Qed.

Lemma get_add_items (d : dict) (sec : pystr * list pystr) (k : pystr) :
  get (add_items d sec) k =
  if str_eqb (fst sec) k
  then match get d k with
       | Some v => Some (v ++ snd sec)
       | None => Some (snd sec)
       end
  else get d k.
Proof.
  unfold add_items, mem. destruct (get d (fst sec)) eqn:E.
  - rewrite get_extend. destruct (str_eqb (fst sec) k) eqn:Ek; [|reflexivity].
    apply str_eqb_eq in Ek. subst k. now rewrite E.
  - rewrite get_set. destruct (str_eqb (fst sec) k) eqn:Ek; [|reflexivity].
    apply str_eqb_eq in Ek. subst k. now rewrite E.
Qed.

(** What the dictionary holds for [k] after the sections [secs] have been
    added to [d]. *)
Lemma get_fold_add_items (secs : list (pystr * list pystr)) (d : dict)
      (k : pystr) :
  get (fold_left add_items secs d) k =
  match get d k with
  | Some v => Some (v ++ collect k secs)
  | None => if occurs k secs then Some (collect k secs) else None
  end.
Proof.
  revert d. induction secs as [|sec secs IH]; intro d.
  - cbn. destruct (get d k); [now rewrite app_nil_r|reflexivity].
  - cbn [fold_left]. rewrite IH, get_add_items.
    unfold collect, occurs. cbn [filter existsb].
    destruct (str_eqb (fst sec) k); cbn [map concat orb].
    + destruct (get d k); [now rewrite <- app_assoc|reflexivity].
    + reflexivity.
Qed.

Lemma wisdom_of_lines_fold (lines : list pystr) :
  wisdom_of_lines lines = fold_left add_items (sections_of lines) [].
Proof.
  unfold wisdom_of_lines, sections_of.
  generalize (subheads_of lines) as subs. generalize (@nil (pystr * list pystr)) as d.
  intros d subs. revert d.
  induction subs as [|[i section] subs IH]; intro d; [reflexivity|].
  cbn [fold_left map fst snd]. rewrite <- IH. f_equal.
  unfold add_section, add_items.
  now destruct (extract_wisdom (skipn (i + 1) lines) section).
Qed.

End Dictionaries.

(** C6. In the dictionary the section parser builds no key occurs
    twice, and a name has, as its list, the item lists of all sections
    of that name one after the other in the order met; a name no section
    has is absent. A document with two sections Misc, holding [p] and
    [q], and a section Other between them, gives Misc the list [p], [q]. *)
Theorem get_wisdom_concatenates :
  (forall lines : list pystr, NoDup (keys (wisdom_of_lines lines)))
  /\ (forall (lines : list pystr) (k : pystr),
         get (wisdom_of_lines lines) k =
         if occurs k (sections_of lines)
         then Some (collect k (sections_of lines))
         else None)
  /\ (forall path : pystr,
         get_wisdom path (world_of_wisdom wisdom_misc) =
         (Val [(lit "Misc", [lit "p"; lit "q"]); (lit "Other", [lit "x"])],
          world_of_wisdom wisdom_misc)).
Proof.
  split; [|split].
  - intro lines. rewrite wisdom_of_lines_fold.
    apply fold_add_items_NoDup. constructor.
  - intros lines k. rewrite wisdom_of_lines_fold.
    now rewrite get_fold_add_items.
  - intro path. reflexivity.
Qed.

(** ** Body extraction *)

Section Body.

Variable path : pystr.

(** Negative indices count from the end. *)
Lemma index_from_end {A : Type} (p : list A) (b a : A) :
  PyList.index (p ++ [b; a]) (-1) = Some a
  /\ PyList.index (p ++ [b; a]) (-2) = Some b.
Proof.
  unfold PyList.index. rewrite length_app. cbn [length].
  split.
  - replace (0 <=? -1)%Z with false by reflexivity.
    destruct (Z.leb_spec 0 (-1 + Z.of_nat (length p + 2))) as [_|H]; [|lia].
    replace (Z.to_nat (-1 + Z.of_nat (length p + 2))) with (length p + 1)
      by lia.
    rewrite nth_error_app2 by lia.
    replace (length p + 1 - length p) with 1 by lia. reflexivity.
  - replace (0 <=? -2)%Z with false by reflexivity.
    destruct (Z.leb_spec 0 (-2 + Z.of_nat (length p + 2))) as [_|H]; [|lia].
    replace (Z.to_nat (-2 + Z.of_nat (length p + 2))) with (length p + 0)
      by lia.
    rewrite nth_error_app2 by lia.
    replace (length p + 0 - length p) with 0 by lia. reflexivity.
Qed.

(** What [get_wisdom_lines] does once the file is read. *)
Lemma get_wisdom_lines_run (w : world) (raw : list pystr) :
  wisdom_md w = Some raw ->
  get_wisdom_lines path w =
  if conforming (map strip raw)
  then (Val (body_of (map strip raw)), w)
  else (SysExit 1, add_stderr w [parse_error path]).
Proof.
  intro Hfile. unfold get_wisdom_lines, bind, readlines. rewrite Hfile.
  unfold conforming, body_of.
  set (lines := map strip raw).
  generalize (subheads_of lines) as subs. intro subs.
  destruct (rev subs) as [|[i1 h1] [|[i2 h2] [|x rest]]] eqn:Er.
  1-3: apply (f_equal (@length _)) in Er; rewrite length_rev in Er;
    cbn in Er; rewrite Er; reflexivity.
  assert (Hs : subs = (rev rest ++ [x]) ++ [(i2, h2); (i1, h1)]).
  { rewrite <- (rev_involutive subs), Er. cbn [rev].
    now rewrite <- !app_assoc. }
  assert (Hlen : (length subs <? 3) = false).
  { apply Nat.ltb_ge. rewrite Hs, !length_app. cbn. lia. }
  rewrite Hlen. cbn [ret].
  unfold getitem.
  destruct (index_from_end (rev rest ++ [x]) (i2, h2) (i1, h1)) as [H1 H2].
  rewrite <- Hs in H1, H2. rewrite H1, H2. cbn [ret snd fst].
  destruct (startswith h1 (lit "## Licensing")
            && startswith h2 (lit "## About"));
    cbn [negb]; [|reflexivity].
  cbn [ret].
  destruct subs as [|[i0 h0] subs']; [discriminate Hlen|].
  reflexivity.
Qed.

(** [conforming], spelled out. *)
Lemma conforming_iff (lines : list pystr) :
  conforming lines = true <->
  exists subs pen last,
    subheads_of lines = subs ++ [pen; last]
    /\ 1 <= length subs
    /\ startswith (snd last) (lit "## Licensing") = true
    /\ startswith (snd pen) (lit "## About") = true.
Proof.
  unfold conforming. split.
  - destruct (rev (subheads_of lines))
      as [|[i1 h1] [|[i2 h2] [|x rest]]] eqn:Er; try discriminate.
    intro H. apply andb_true_iff in H. destruct H as [Hl Hp].
    exists (rev rest ++ [x]), (i2, h2), (i1, h1).
    split; [|split; [|split]]; try assumption.
    + rewrite <- (rev_involutive (subheads_of lines)), Er. cbn [rev].
      now rewrite <- !app_assoc.
    + rewrite length_app. cbn. lia.
  - intros (subs & [i2 h2] & [i1 h1] & Hs & Hlen & Hl & Hp).
    rewrite Hs, rev_app_distr. cbn [rev app].
    destruct (rev subs) as [|x rest] eqn:Er.
    + apply (f_equal (@length _)) in Er. rewrite length_rev in Er.
      cbn in Er. lia.
    + cbn [snd] in Hl, Hp. now rewrite Hl, Hp.
Qed.

End Body.

(** C4, as amended. With wisdom.md read, body extraction ends in the
    fatal error (the message naming the path on the error stream, then
    exit code 1) exactly when the document does not conform: fewer than
    three lines start with [##], or the last of them does not start with
    [## Licensing], or the one before it does not start with [## About].
    For a conforming document it returns the body and writes nothing. *)
Theorem get_wisdom_lines_fatal_iff
        (path : pystr) (w : world) (raw : list pystr) :
  wisdom_md w = Some raw ->
  (get_wisdom_lines path w = (SysExit 1, add_stderr w [parse_error path])
   <-> conforming (map strip raw) = false)
  /\ (get_wisdom_lines path w = (Val (body_of (map strip raw)), w)
      <-> conforming (map strip raw) = true)
  /\ (conforming (map strip raw) = true <->
      exists subs pen last,
        subheads_of (map strip raw) = subs ++ [pen; last]
        /\ 1 <= length subs
        /\ startswith (snd last) (lit "## Licensing") = true
        /\ startswith (snd pen) (lit "## About") = true).
Proof.
  intro Hfile. rewrite (get_wisdom_lines_run path w raw Hfile).
  split; [|split]; [| |apply conforming_iff];
    destruct (conforming (map strip raw)); split; intro H;
    try reflexivity; try discriminate H.
Qed.

Lemma get_wisdom_lines_fatal_iff_witness :
  get_wisdom_lines SAMPLE_PATH (world_of_wisdom wisdom_two_headings) =
    (SysExit 1,
     add_stderr (world_of_wisdom wisdom_two_headings)
                [parse_error SAMPLE_PATH])
  /\ get_wisdom_lines SAMPLE_PATH (world_of_wisdom wisdom_misc) =
       (Val (body_of (map strip wisdom_misc)), world_of_wisdom wisdom_misc).
Proof.
  split.
  - apply (get_wisdom_lines_fatal_iff SAMPLE_PATH
             (world_of_wisdom wisdom_two_headings) wisdom_two_headings);
      reflexivity.
  - apply (get_wisdom_lines_fatal_iff SAMPLE_PATH
             (world_of_wisdom wisdom_misc) wisdom_misc);
      reflexivity.
Defined.

(** C4, as stated, fails: a document whose last two sections are called
    [About this document] and [Licensing terms] does not end in the two
    sections named exactly About and Licensing, and body extraction
    returns its body all the same. *)
Lemma get_wisdom_lines_accepts_longer_names :
  conforming_exactly (map strip wisdom_long_names) = false
  /\ get_wisdom_lines SAMPLE_PATH (world_of_wisdom wisdom_long_names) =
       (Val [lit "## Advice"; lit "- Be kind"],
        world_of_wisdom wisdom_long_names).
Proof. split; reflexivity. Qed.

(** ** The selector *)

Section Selector.

Variable wrap : pystr -> list pystr.

Lemma total_cons (k : pystr) (items : list pystr) (d : dict) :
  total ((k, items) :: d) = (Z.of_nat (length items) + total d)%Z.
Proof. reflexivity. Qed.

Lemma total_nonneg (d : dict) : (0 <= total d)%Z.
Proof.
  induction d as [|[k items] d IH]; [reflexivity|]. rewrite total_cons. lia.
Qed.

Lemma flatten_cons (k : pystr) (items : list pystr) (d : dict) :
  flatten ((k, items) :: d) = map (pair k) items ++ flatten d.
Proof. reflexivity. Qed.

Lemma flatten_length (d : dict) : Z.of_nat (length (flatten d)) = total d.
Proof.
  induction d as [|[k items] d IH]; [reflexivity|].
  rewrite flatten_cons, total_cons, length_app, length_map. lia.
Qed.

Lemma merlin_loop_selects (d : dict) (i : Z) (w : world) :
  (0 <= i < total d)%Z ->
  exists k item,
    nth_error (flatten d) (Z.to_nat i) = Some (k, item)
    /\ merlin_loop wrap d i w =
       (SysExit 1, add_stdout w [Text (format wrap item); Text (credit k)]).
Proof.
  revert i. induction d as [|[k items] d IH]; intros i Hi.
  - cbn in Hi. lia.
  - rewrite total_cons in Hi. rewrite flatten_cons. cbn [merlin_loop].
    destruct (Z.ltb_spec i (Z.of_nat (length items))) as [Hlt|Hge].
    + destruct (nth_error items (Z.to_nat i)) as [item|] eqn:En.
      2:{ apply nth_error_None in En. lia. }
      exists k, item. split.
      * rewrite nth_error_app1 by (rewrite length_map; lia).
        now rewrite nth_error_map, En.
      * unfold bind, getitem, PyList.index.
        destruct (Z.leb_spec 0 i) as [_|]; [|lia]. rewrite En.
        unfold ret, print, sys_exit. now rewrite add_stdout_add_stdout.
    + destruct (IH (i - Z.of_nat (length items))%Z ltac:(lia))
        as (k' & item & Hn & Hrun).
      exists k', item. split; [|exact Hrun].
      rewrite nth_error_app2 by (rewrite length_map; lia).
      rewrite length_map.
      replace (Z.to_nat i - length items)
        with (Z.to_nat (i - Z.of_nat (length items))) by lia.
      exact Hn.
Qed.

Lemma merlin_run (d : dict) (draw : Z) (w : world) :
  wisdom_json w = Some d ->
  merlin wrap draw w =
  if (total d =? 0)%Z then (Raised ValueError, w)
  else merlin_loop wrap d (draw mod total d) w.
Proof.
  intro Hjson. unfold merlin, bind, json_load, randint. rewrite Hjson.
  pose proof (total_nonneg d) as Hn.
  destruct (Z.eqb_spec (total d) 0) as [E|E].
  - rewrite E. reflexivity.
  - destruct (Z.ltb_spec (total d - 1) 0) as [H|H]; [lia|].
    unfold ret. cbn [Z.add].
    now replace (total d - 1 - 0 + 1)%Z with (total d) by lia.
Qed.

(** Whatever the generator yields, a cache with items has one selected:
    the one at the position the output falls on. *)
Lemma merlin_selects_any (d : dict) (draw : Z) (w : world) :
  wisdom_json w = Some d ->
  total d <> 0%Z ->
  exists k item,
    nth_error (flatten d) (Z.to_nat (draw mod total d)) = Some (k, item)
    /\ merlin wrap draw w =
       (SysExit 1, add_stdout w [Text (format wrap item); Text (credit k)]).
Proof.
  intros Hjson Hpos.
  rewrite (merlin_run d draw w Hjson).
  destruct (Z.eqb_spec (total d) 0) as [E|_]; [contradiction|].
  apply merlin_loop_selects. pose proof (total_nonneg d).
  apply Z.mod_pos_bound. lia.
Qed.

End Selector.

Lemma merlin_selects
      (wrap : pystr -> list pystr) (d : dict) (draw : Z) (w : world) :
  wisdom_json w = Some d ->
  (0 <= draw < total d)%Z ->
  exists k item,
    nth_error (flatten d) (Z.to_nat draw) = Some (k, item)
    /\ merlin wrap draw w =
       (SysExit 1, add_stdout w [Text (format wrap item); Text (credit k)]).
Proof.
  intros Hjson Hdraw.
  destruct (merlin_selects_any wrap d draw w Hjson ltac:(lia))
    as (k & item & Hn & Hrun).
  rewrite Z.mod_small in Hn by assumption.
  now exists k, item.
Qed.

Lemma shown_format (wrap : pystr -> list pystr) (item : pystr) :
  format wrap item = shown wrap item.
Proof. reflexivity. Qed.

Lemma attribution_credit (k : pystr) : credit k = attribution k.
Proof. reflexivity. Qed.

(** The selector on the output [draw], for a cache with items. *)
Lemma merlin_selection
      (wrap : pystr -> list pystr) (d : dict) (draw : Z) (w : world) :
  wisdom_json w = Some d ->
  total d <> 0%Z ->
  exists p,
    nth_error (flatten d) (Z.to_nat (draw mod total d)) = Some p
    /\ merlin wrap draw w = selection wrap w p.
Proof.
  intros Hjson Hpos.
  destruct (merlin_selects_any wrap d draw w Hjson Hpos)
    as (k & item & Hn & Hrun).
  exists (k, item). split; [exact Hn|].
  rewrite Hrun. unfold selection. cbn [fst snd].
  now rewrite shown_format, attribution_credit.
Qed.

(** The selector on the outputs 0, 1, ... in turn goes through the
    items in their flattened order. *)
Lemma merlin_over_draws
      (wrap : pystr -> list pystr) (d : dict) (w : world) :
  wisdom_json w = Some d ->
  map (fun r => merlin wrap r w) (draws (length (flatten d)))
  = map (selection wrap w) (flatten d).
Proof.
  intro Hjson.
  pose proof (flatten_length d) as Hlen.
  unfold draws. rewrite map_map.
  apply (nth_ext _ _ (merlin wrap 0 w) (selection wrap w ([], []))).
  - now rewrite !length_map, length_seq.
  - intros n Hn. rewrite length_map, length_seq in Hn.
    rewrite (nth_indep _ _ (merlin wrap (Z.of_nat 0) w))
      by (now rewrite length_map, length_seq).
    rewrite (map_nth (fun x => merlin wrap (Z.of_nat x) w)).
    rewrite seq_nth by assumption. cbn [Nat.add].
    rewrite (map_nth (selection wrap w)).
    destruct (merlin_selection wrap d (Z.of_nat n) w Hjson ltac:(lia))
      as (p & Hp & Hrun).
    rewrite Z.mod_small, Nat2Z.id in Hp by lia.
    rewrite Hrun. f_equal.
    symmetry. now apply nth_error_nth.
Qed.

(** C7. With the cache [d] loaded and holding N items, N not 0, the
    selector asks [random.randint] for an integer from 0 to N - 1, so
    that whatever the generator yields the index is in that range, and
    the walk over the categories in insertion order selects the item at
    that index of the flattened sequence of items, prints it and its
    category and exits with code 1. The flattened sequence has N
    positions, and over the N outputs 0 to N - 1 of the generator the
    selector goes through the N items one after the other: every item is
    selected for exactly one output in N, whatever its category. *)
Theorem merlin_selects_flat_item
        (wrap : pystr -> list pystr) (d : dict) (draw : Z) (w : world) :
  wisdom_json w = Some d ->
  total d <> 0%Z ->
  (0 <= draw mod total d < total d)%Z
  /\ Z.of_nat (length (flatten d)) = total d
  /\ (exists p,
         nth_error (flatten d) (Z.to_nat (draw mod total d)) = Some p
         /\ merlin wrap draw w = selection wrap w p)
  /\ map (fun r => merlin wrap r w) (draws (length (flatten d)))
     = map (selection wrap w) (flatten d).
Proof.
  intros Hjson Hpos. pose proof (total_nonneg d) as Hnn.
  split; [apply Z.mod_pos_bound; lia|].
  split; [apply flatten_length|].
  split; [now apply merlin_selection|now apply merlin_over_draws].
Qed.

Lemma merlin_selects_flat_item_witness :
  merlin sample_wrap 0 (world_of_cache store_ab) =
    (SysExit 1,
     add_stdout (world_of_cache store_ab)
       [Text (lit "x");
        Text (NL ++ lit "From A, https://github.com/merlinmann/wisdom"
                 ++ NL)])
  /\ merlin sample_wrap 1 (world_of_cache store_ab) =
       (SysExit 1,
        add_stdout (world_of_cache store_ab)
          [Text (lit "y");
           Text (NL ++ lit "From B, https://github.com/merlinmann/wisdom"
                    ++ NL)])
  /\ merlin sample_wrap 2 (world_of_cache store_ab) =
       (SysExit 1,
        add_stdout (world_of_cache store_ab)
          [Text (lit "z");
           Text (NL ++ lit "From B, https://github.com/merlinmann/wisdom"
                    ++ NL)])
  /\ merlin sample_wrap 7 (world_of_cache store_ab) =
       (SysExit 1,
        add_stdout (world_of_cache store_ab)
          [Text (lit "y");
           Text (NL ++ lit "From B, https://github.com/merlinmann/wisdom"
                    ++ NL)]).
Proof.
  split; [|split; [|split]].
  - destruct (merlin_selects_flat_item sample_wrap store_ab 0
                (world_of_cache store_ab) eq_refl)
      as (_ & _ & (p & Hn & Hrun) & _); [discriminate|].
    vm_compute in Hn. injection Hn as <-. exact Hrun.
  - destruct (merlin_selects_flat_item sample_wrap store_ab 1
                (world_of_cache store_ab) eq_refl)
      as (_ & _ & (p & Hn & Hrun) & _); [discriminate|].
    vm_compute in Hn. injection Hn as <-. exact Hrun.
  - destruct (merlin_selects_flat_item sample_wrap store_ab 2
                (world_of_cache store_ab) eq_refl)
      as (_ & _ & (p & Hn & Hrun) & _); [discriminate|].
    vm_compute in Hn. injection Hn as <-. exact Hrun.
  - destruct (merlin_selects_flat_item sample_wrap store_ab 7
                (world_of_cache store_ab) eq_refl)
      as (_ & _ & (p & Hn & Hrun) & _); [discriminate|].
    vm_compute in Hn. injection Hn as <-. exact Hrun.
Defined.

(** C10. With the cache [d] loaded: when it holds no item at all,
    [merlin] ends in the [ValueError] of [random.randint] on the empty
    range, whatever the generator yields, and has printed nothing; when
    it holds an item, then whatever the generator yields an item of the
    cache is selected, the item is printed line by line, each line
    wrapped, then the attribution with its category, and the run exits
    with code 1. The cache holds no item exactly when its total is 0. *)
Theorem merlin_needs_an_item
        (wrap : pystr -> list pystr) (d : dict) (w : world) :
  wisdom_json w = Some d ->
  (total d = 0%Z <-> flatten d = [])
  /\ (total d = 0%Z ->
      forall draw, merlin wrap draw w = (Raised ValueError, w))
  /\ (total d <> 0%Z ->
      forall draw,
      exists k item,
        In (k, item) (flatten d)
        /\ merlin wrap draw w =
           (SysExit 1,
            add_stdout w
              [Text (join NL (map (fun L => join NL (wrap L))
                                  (splitlines item)));
               Text (NL ++ lit "From " ++ k
                        ++ lit ", https://github.com/merlinmann/wisdom"
                        ++ NL)])).
Proof.
  intro Hjson. split; [|split].
  - rewrite <- flatten_length. split.
    + intro H. destruct (flatten d); [reflexivity|discriminate H].
    + now intros ->.
  - intros Hzero draw. rewrite (merlin_run wrap d draw w Hjson).
    now rewrite Hzero.
  - intros Hpos draw.
    destruct (merlin_selection wrap d draw w Hjson Hpos)
      as ([k item] & Hn & Hrun).
    exists k, item. split; [eapply nth_error_In, Hn|exact Hrun].
Qed.

Lemma merlin_needs_an_item_witness :
  merlin sample_wrap 0 (world_of_cache store_empty) =
    (Raised ValueError, world_of_cache store_empty)
  /\ merlin sample_wrap 5 (world_of_cache store_ab) =
       (SysExit 1,
        add_stdout (world_of_cache store_ab)
          [Text (lit "z");
           Text (NL ++ lit "From B, https://github.com/merlinmann/wisdom"
                    ++ NL)]).
Proof.
  split.
  - apply (merlin_needs_an_item sample_wrap store_empty
             (world_of_cache store_empty) eq_refl).
    reflexivity.
  - destruct (merlin_needs_an_item sample_wrap store_ab
                (world_of_cache store_ab) eq_refl) as (_ & _ & Hsel).
    destruct (Hsel ltac:(discriminate) 5%Z) as (k & item & Hin & Hrun).
    destruct Hin as [E|[E|[E|[]]]]; injection E as <- <-;
      first [exact Hrun | vm_compute in Hrun; discriminate Hrun].
Defined.

Section Refresh.

Variable path : pystr.
Variable wrap : pystr -> list pystr.

Lemma warned_files (w : world) (qraw : list pystr) :
  quotes_md (warned w qraw) = quotes_md w
  /\ wisdom_md (warned w qraw) = wisdom_md w
  /\ wisdom_json (warned w qraw) = wisdom_json w
  /\ stdout (warned w qraw) = stdout w.
Proof. unfold warned. destruct (any _); repeat split. Qed.

(** What [update] does with both files in place and a conforming
    wisdom document. *)
Lemma update_run (w : world) (qraw wraw : list pystr) :
  quotes_md w = Some qraw ->
  wisdom_md w = Some wraw ->
  conforming (map strip wraw) = true ->
  update path w =
  (Val tt, set_json (warned w qraw) (refreshed qraw wraw)).
Proof.
  intros Hq Hw Hc. unfold update, bind at 1.
  rewrite (get_quotes_run w qraw Hq). fold (warned w qraw).
  unfold bind at 1, get_wisdom, bind at 1.
  rewrite (get_wisdom_lines_run path (warned w qraw) wraw)
    by (now rewrite (proj1 (proj2 (warned_files w qraw)))).
  rewrite Hc. reflexivity.
Qed.

Lemma main_update_flag (prog flag : pystr) (draw : Z) (w : world) :
  flag = lit "-u" \/ flag = lit "--update" ->
  main path wrap [prog; flag] draw w =
  match update path w with
  | (Val _, w1) =>
      match wisdom_json w1 with
      | Some _ => merlin wrap draw w1
      | None => bind (update path) (fun _ => merlin wrap draw) w1
      end
  | (SysExit c, w1) => (SysExit c, w1)
  | (Raised e, w1) => (Raised e, w1)
  end.
Proof.
  intro Hflag. unfold main. cbn [length Nat.ltb Nat.leb Nat.eqb nth andb].
  assert (Hf : str_eqb flag (lit "-u") || str_eqb flag (lit "--update") = true).
  { destruct Hflag as [-> | ->]; reflexivity. }
  rewrite Hf. unfold bind at 1.
  destruct (update path w) as [[[]|c|e] w1]; try reflexivity.
  unfold bind at 1, json_exists.
  destruct (wisdom_json w1); reflexivity.
Qed.

End Refresh.

(** C1, as amended. Called with the one argument [-u] or [--update],
    with both documents in place and a conforming wisdom document, the
    script rebuilds the cache and stores it, and then goes on as a plain
    call does: it loads the cache, selects the item at the drawn index,
    prints it and its category, and exits with code 1. *)
Theorem main_update_then_selects
        (path : pystr) (wrap : pystr -> list pystr) (prog flag : pystr)
        (draw : Z) (w : world) (qraw wraw : list pystr) :
  flag = lit "-u" \/ flag = lit "--update" ->
  quotes_md w = Some qraw ->
  wisdom_md w = Some wraw ->
  conforming (map strip wraw) = true ->
  (0 <= draw < total (refreshed qraw wraw))%Z ->
  update path w = (Val tt, set_json (warned w qraw) (refreshed qraw wraw))
  /\ exists k item,
       nth_error (flatten (refreshed qraw wraw)) (Z.to_nat draw)
       = Some (k, item)
       /\ main path wrap [prog; flag] draw w =
          (SysExit 1,
           add_stdout (set_json (warned w qraw) (refreshed qraw wraw))
                      [Text (format wrap item); Text (credit k)]).
Proof.
  intros Hflag Hq Hw Hc Hdraw.
  pose proof (update_run path w qraw wraw Hq Hw Hc) as Hup.
  split; [exact Hup|].
  rewrite (main_update_flag path wrap prog flag draw w Hflag), Hup.
  cbn [wisdom_json set_json].
  now apply merlin_selects.
Qed.

Lemma main_update_then_selects_witness :
  main SAMPLE_PATH sample_wrap [lit "merlin.py"; lit "--update"] 3
       world_fresh =
    (SysExit 1,
     add_stdout
       (set_json world_fresh (refreshed quotes_example wisdom_misc))
       [Text (lit "Quote line one" ++ NL ++ lit "- Attribution");
        Text (credit (lit "quotes"))]).
Proof.
  destruct (main_update_then_selects SAMPLE_PATH sample_wrap
              (lit "merlin.py") (lit "--update") 3 world_fresh
              quotes_example wisdom_misc)
    as [_ (k & item & Hn & Hrun)].
  - now right.
  - reflexivity.
  - reflexivity.
  - reflexivity.
  - split; [lia|reflexivity].
  - vm_compute in Hn. injection Hn as <- <-. exact Hrun.
Defined.

(** C1, as stated, fails: called with [-u] on the sample documents, the
    script prints an item and its category after the refresh, and exits
    with code 1. *)
Lemma main_update_prints_and_exits_1 :
  exit_code
    (fst (main SAMPLE_PATH sample_wrap [lit "merlin.py"; lit "-u"] 0
               world_fresh)) = 1%Z
  /\ stdout
       (snd (main SAMPLE_PATH sample_wrap [lit "merlin.py"; lit "-u"] 0
                  world_fresh))
     = [Text (lit "p"); Text (credit (lit "Misc"))]
  /\ wisdom_json
       (snd (main SAMPLE_PATH sample_wrap [lit "merlin.py"; lit "-u"] 0
                  world_fresh))
     = Some [ (lit "Misc", [lit "p"; lit "q"]);
              (lit "Other", [lit "x"]);
              (lit "quotes",
               [lit "Quote line one" ++ NL ++ lit "- Attribution"]) ].
Proof. repeat split. Qed.

(** * Further properties *)

(** ** Trimming and markup *)

Section Trimming.

Lemma lstrip_idem (L : pystr) : lstrip (lstrip L) = lstrip L.
Proof.
  induction L as [|c L IH]; [reflexivity|].
  cbn [lstrip]. destruct (isspace c) eqn:E; [exact IH|].
  cbn [lstrip]. now rewrite E.
Qed.

(** A string that ends with a character [strip] keeps is trimmed on the
    left as its front is. *)
Lemma lstrip_snoc (L : pystr) (c : char) :
  isspace c = false -> lstrip (L ++ [c]) = lstrip L ++ [c].
Proof.
  intro Hc. induction L as [|a L IH]; cbn [app lstrip].
  - now rewrite Hc.
  - destruct (isspace a); [exact IH|reflexivity].
Qed.

Lemma rstrip_cons (c : char) (L : pystr) :
  isspace c = false -> rstrip (c :: L) = c :: rstrip L.
Proof.
  intro Hc. unfold rstrip. cbn [rev].
  rewrite lstrip_snoc by assumption.
  rewrite rev_app_distr. reflexivity.
Qed.

Lemma rstrip_idem (L : pystr) : rstrip (rstrip L) = rstrip L.
Proof. unfold rstrip. now rewrite rev_involutive, lstrip_idem. Qed.

Lemma strip_idem (L : pystr) : strip (strip L) = strip L.
Proof.
  unfold strip. destruct (lstrip L) as [|c X] eqn:E; [reflexivity|].
  assert (Hc : isspace c = false).
  { clear -E. induction L as [|a L IH]; [discriminate E|].
    cbn [lstrip] in E. destruct (isspace a) eqn:Ea; [now apply IH|].
    now injection E as <- _. }
  rewrite rstrip_cons by assumption.
  cbn [lstrip]. rewrite Hc.
  rewrite rstrip_cons by assumption. now rewrite rstrip_idem.
Qed.

(** Trimming only removes characters. *)
Lemma lstrip_incl (L : pystr) (c : char) : In c (lstrip L) -> In c L.
Proof.
  induction L as [|a L IH]; [tauto|].
  cbn [lstrip]. destruct (isspace a); [|tauto].
  intro H. right. now apply IH.
Qed.

Lemma strip_incl (L : pystr) (c : char) : In c (strip L) -> In c L.
Proof.
  unfold strip, rstrip. intro H.
  apply in_rev, lstrip_incl in H. apply in_rev in H.
  now apply lstrip_incl.
Qed.

Lemma remove_char_absent (c : char) (L : pystr) :
  ~ In c L -> remove_char c L = L.
Proof.
  intro H. unfold remove_char. induction L as [|a L IH]; [reflexivity|].
  cbn [filter]. destruct (N.eqb_spec a c) as [->|Hn]; cbn [negb].
  - exfalso. apply H. now left.
  - f_equal. apply IH. intro HL. apply H. now right.
Qed.

Lemma remove_char_In (c x : char) (L : pystr) :
  In x (remove_char c L) <-> In x L /\ x <> c.
Proof.
  unfold remove_char. rewrite filter_In, negb_true_iff, N.eqb_neq. tauto.
Qed.

Lemma demark_no_marker (L : pystr) (c : char) :
  In c (demark L) -> c <> 42%N /\ c <> 95%N /\ c <> 62%N.
Proof.
  unfold demark. intro H. apply strip_incl in H.
  rewrite !remove_char_In in H. tauto.
Qed.

End Trimming.

(** X1. [demark] is idempotent: its result holds no asterisk,
    underscore or greater-than sign and is trimmed already, so a second
    pass returns it as it is. *)
Theorem demark_idempotent :
  forall L : pystr,
    demark (demark L) = demark L
    /\ strip (demark L) = demark L
    /\ (forall c, In c (demark L) -> c <> 42%N /\ c <> 95%N /\ c <> 62%N).
Proof.
  intro L.
  assert (Hs : strip (demark L) = demark L)
    by (unfold demark; apply strip_idem).
  split; [|split; [exact Hs|apply demark_no_marker]].
  unfold demark at 1.
  rewrite !remove_char_absent; [exact Hs| | |];
    intro H; try apply remove_char_In in H as [H _];
    try apply remove_char_In in H as [H _];
    apply demark_no_marker in H; tauto.
Qed.

(** ** More on the quote parser *)

Section QuoteBlocks.

(** The quotes completed before the loop starts stay in front, and the
    buffer does not depend on them. *)
Lemma quotes_loop_prefix (lines quotes quote : list pystr) :
  quotes_loop lines quotes quote =
  (quotes ++ fst (quotes_loop lines [] quote),
   snd (quotes_loop lines [] quote)).
Proof.
  revert quotes quote.
  induction lines as [|line lines IH]; intros quotes quote.
  - cbn. now rewrite app_nil_r.
  - cbn [quotes_loop]. destruct (starts_with_dash line); [|apply IH].
    cbn [app].
    rewrite (IH (quotes ++ [form_quote (quote ++ [demark line])]) []).
    rewrite (IH [form_quote (quote ++ [demark line])] []).
    cbn [fst snd app]. now rewrite <- app_assoc.
Qed.

Lemma quotes_loop_count (lines quote : list pystr) :
  length (fst (quotes_loop lines [] quote)) =
  length (filter starts_with_dash lines).
Proof.
  revert quote. induction lines as [|line lines IH]; intro quote.
  - reflexivity.
  - cbn [quotes_loop filter]. destruct (starts_with_dash line); [|apply IH].
    rewrite quotes_loop_prefix. cbn [fst app length]. now rewrite IH.
Qed.

(** A line that starts with a dash is not emptied by [demark]. *)
Lemma demark_dash_nonempty (L : pystr) :
  starts_with_dash L = true -> demark L <> [].
Proof.
  destruct L as [|c L]; [discriminate|]. cbn [starts_with_dash].
  intro Hd. apply is_dash_char in Hd.
  assert (Hkeep :
            remove_char 62%N (remove_char 95%N (remove_char 42%N (c :: L)))
            = c :: remove_char 62%N (remove_char 95%N (remove_char 42%N L))
            /\ isspace c = false).
  { unfold HYPHEN_MINUS, EN_DASH, EM_DASH, HORIZONTAL_BAR, HEAVY_MINUS in Hd.
    destruct Hd as [->|[->|[->|[->| ->]]]]; split; reflexivity. }
  destruct Hkeep as [Hkeep Hsp].
  unfold demark, strip. rewrite Hkeep. cbn [lstrip]. rewrite Hsp.
  rewrite rstrip_cons by assumption. discriminate.
Qed.

Lemma any_all_empty (l : list pystr) :
  (forall L, In L l -> L = []) -> any l = false.
Proof.
  intro H. unfold any. induction l as [|a l IH]; [reflexivity|].
  cbn [existsb]. rewrite (H a (or_introl eq_refl)). cbn.
  apply IH. intros L HL. apply H. now right.
Qed.

End QuoteBlocks.

(** X2. [get_quotes] returns one quote for each kept line (trimmed, not
    a heading, not a separator) that starts with a dash, whatever lies
    between those lines. *)
Theorem get_quotes_one_per_attribution (w : world) (raw : list pystr) :
  quotes_md w = Some raw ->
  exists quotes w',
    get_quotes w = (Val quotes, w')
    /\ length quotes = length (filter starts_with_dash (quote_lines raw)).
Proof.
  intro Hfile. rewrite (get_quotes_run w raw Hfile).
  eexists. eexists. split; [reflexivity|]. apply quotes_loop_count.
Qed.

Lemma get_quotes_one_per_attribution_witness :
  exists quotes w',
    get_quotes (world_of_quotes quotes_example) = (Val quotes, w')
    /\ length quotes = 1.
Proof.
  exact (get_quotes_one_per_attribution (world_of_quotes quotes_example)
           quotes_example eq_refl).
Defined.



(** X4. Lines that [demark] empties (blank lines, lines of markup only)
    after the last complete quote are no dangling quote: [get_quotes]
    returns the quotes completed before them and writes no warning. *)
Theorem get_quotes_blank_tail_silent (w : world) (pre tail : list pystr) :
  quotes_md w = Some (pre ++ tail) ->
  snd (quotes_loop (quote_lines pre) [] []) = [] ->
  (forall L, In L (quote_lines tail) -> demark L = []) ->
  get_quotes w = (Val (fst (quotes_loop (quote_lines pre) [] [])), w).
Proof.
  intros Hfile Hpre Hblank.
  rewrite (get_quotes_run w _ Hfile).
  rewrite quote_lines_app, quotes_loop_app.
  assert (Hno : forall L, In L (quote_lines tail) -> starts_with_dash L = false).
  { intros L HL. destruct (starts_with_dash L) eqn:E; [|reflexivity].
    apply demark_dash_nonempty in E. now rewrite (Hblank L HL) in E. }
  rewrite (quotes_loop_no_dash _ _ _ Hno). cbn [fst snd].
  rewrite Hpre. cbn [app].
  rewrite any_all_empty; [reflexivity|].
  intros L HL. apply in_map_iff in HL. destruct HL as (L' & <- & HL').
  now apply Hblank.
Qed.

Lemma get_quotes_blank_tail_silent_witness :
  get_quotes (world_of_quotes (quotes_orphan_pre ++ [NL; lit "**" ++ NL])) =
    (Val [lit "Quote line one" ++ NL ++ lit "- Attribution"],
     world_of_quotes (quotes_orphan_pre ++ [NL; lit "**" ++ NL])).
Proof.
  apply (get_quotes_blank_tail_silent
           (world_of_quotes (quotes_orphan_pre ++ [NL; lit "**" ++ NL]))
           quotes_orphan_pre [NL; lit "**" ++ NL]).
  - reflexivity.
  - reflexivity.
  - intros L HL. vm_compute in HL. destruct HL as [<-|[<-|[]]]; reflexivity.
Defined.

(** ** Sections end at the next heading *)

Section Isolation.

Lemma before_heading_cut (pre post : list pystr) (h : pystr) :
  startswith h (lit "##") = true ->
  before_heading (pre ++ h :: post) = before_heading pre.
Proof.
  intro Hh. induction pre as [|L pre IH]; cbn [app before_heading].
  - now rewrite Hh.
  - destruct (startswith L (lit "##")); [reflexivity|]. now rewrite IH.
Qed.

Lemma epigraphs_loop_before_heading (lines epigraphs epigraph : list pystr) :
  epigraphs_loop lines epigraphs epigraph =
  epigraphs_loop (before_heading lines) epigraphs epigraph.
Proof.
  revert epigraphs epigraph.
  induction lines as [|L lines IH]; intros epigraphs epigraph; [reflexivity|].
  cbn [before_heading epigraphs_loop].
  destruct (startswith L (lit "##")) eqn:Eh; [reflexivity|].
  cbn [epigraphs_loop]. rewrite Eh.
  destruct (negb (truthy L) || is_separator L); [apply IH|].
  destruct (starts_with_dash L); apply IH.
Qed.

Lemma general_loop_before_heading (lines items : list pystr) :
  general_loop lines items = general_loop (before_heading lines) items.
Proof.
  revert items.
  induction lines as [|L lines IH]; intro items; [reflexivity|].
  cbn [before_heading general_loop].
  destruct (startswith L (lit "##")) eqn:Eh; [reflexivity|].
  cbn [general_loop]. rewrite Eh.
  destruct (is_separator L || endswith L MANAGEMENT); [apply IH|].
  destruct (starts_with_dash L); apply IH.
Qed.

Lemma extract_wisdom_section_lines (lines : list pystr) (heading : pystr) :
  extract_wisdom lines heading = extract_wisdom (before_heading lines) heading.
Proof.
  unfold extract_wisdom, get_epigraphs, get_general_wisdom.
  destruct (str_eqb (strip (skipn 2 heading)) (lit "Epigraphs")).
  - now rewrite epigraphs_loop_before_heading.
  - now rewrite general_loop_before_heading.
Qed.

Lemma extract_wisdom_name (lines : list pystr) (heading : pystr) :
  fst (extract_wisdom lines heading) = section_name heading.
Proof.
  unfold extract_wisdom, get_epigraphs, get_general_wisdom, section_name.
  destruct (str_eqb (strip (skipn 2 heading)) (lit "Epigraphs"));
    [|reflexivity].
  now destruct (epigraphs_loop lines [] []).
Qed.

End Isolation.

(** X5. A section is read up to the next heading line and no further:
    whatever follows that heading changes neither the name nor the items
    [extract_wisdom] returns, under either strategy. The name is the
    heading without its first two characters, trimmed. *)
Theorem extract_wisdom_stops_at_heading
        (pre post : list pystr) (next heading : pystr) :
  startswith next (lit "##") = true ->
  extract_wisdom (pre ++ next :: post) heading = extract_wisdom pre heading
  /\ fst (extract_wisdom pre heading) = section_name heading.
Proof.
  intro Hnext. split; [|apply extract_wisdom_name].
  rewrite extract_wisdom_section_lines, (before_heading_cut _ _ _ Hnext).
  now rewrite <- extract_wisdom_section_lines.
Qed.

Lemma extract_wisdom_stops_at_heading_witness :
  extract_wisdom ([lit "- p"] ++ lit "## Other" :: [lit "- x"]) (lit "## Misc")
  = extract_wisdom [lit "- p"] (lit "## Misc")
  /\ fst (extract_wisdom [lit "- p"] (lit "## Misc")) = section_name (lit "## Misc").
Proof.
  apply (extract_wisdom_stops_at_heading
           [lit "- p"] [lit "- x"] (lit "## Other") (lit "## Misc")).
  reflexivity.
Defined.

(** ** Blocks of the epigraph strategy *)

Section EpigraphBlocks.


Lemma plain_line_iff (L : pystr) :
  plain_line L = true <->
  truthy L = true /\ startswith L (lit "##") = false
  /\ starts_with_dash L = false.
Proof.
  unfold plain_line. rewrite !andb_true_iff, !negb_true_iff. tauto.
Qed.

(** Plain lines only grow the pending block. *)
Lemma epigraphs_loop_plain (block rest epigraphs epigraph : list pystr) :
  (forall L, In L block -> plain_line L = true) ->
  epigraphs_loop (block ++ rest) epigraphs epigraph =
  epigraphs_loop rest epigraphs (epigraph ++ map demark block).
Proof.
  revert epigraph.
  induction block as [|L block IH]; intros epigraph Hplain.
  - cbn. now rewrite app_nil_r.
  - destruct (proj1 (plain_line_iff L) (Hplain L (or_introl eq_refl)))
      as (Ht & Hh & Hd).
    cbn [app epigraphs_loop map]. rewrite Hh, Ht, Hd. cbn [negb orb].
    assert (Hs : is_separator L = false).
    { destruct (is_separator L) eqn:E; [|reflexivity].
      apply separator_dash in E. congruence. }
    rewrite Hs.
    rewrite IH by (intros L' HL'; apply Hplain; now right).
    now rewrite <- app_assoc.
Qed.

End EpigraphBlocks.



(** X7. A section that ends in a run of plain lines, with no dash line
    after them, still gives them as an epigraph: for a run that is not
    empty, alone in its section, the result is that one epigraph. *)
Theorem get_epigraphs_trailing_kept (block : list pystr) (section : pystr) :
  block <> [] ->
  (forall L, In L block -> plain_line L = true) ->
  get_epigraphs block section =
    (section, [form_epigraph (map demark block)]).
Proof.
  intros Hne Hplain. unfold get_epigraphs.
  rewrite <- (app_nil_r block) at 1.
  rewrite (epigraphs_loop_plain block [] [] [] Hplain).
  cbn [epigraphs_loop app].
  destruct block as [|L block]; [congruence|reflexivity].
Qed.

Lemma get_epigraphs_trailing_kept_witness :
  get_epigraphs [lit "C"; lit "D"] (lit "Epigraphs") =
    (lit "Epigraphs", [form_epigraph (map demark [lit "C"; lit "D"])]).
Proof.
  apply (get_epigraphs_trailing_kept [lit "C"; lit "D"] (lit "Epigraphs")).
  - discriminate.
  - intros L [<-|[<-|[]]]; reflexivity.
Defined.

(** ** The headings of the body *)

Section BodyHeadings.

Lemma subheads_from_cons (n : nat) (a : pystr) (l : list pystr) :
  subheads_from n (a :: l) =
  if startswith a (lit "##")
  then (n, a) :: subheads_from (S n) l
  else subheads_from (S n) l.
Proof. reflexivity. Qed.

Lemma subheads_from_headings (n : nat) (l : list pystr) :
  map snd (subheads_from n l) = headings l.
Proof.
  revert n. induction l as [|a l IH]; intro n; [reflexivity|].
  rewrite subheads_from_cons. unfold headings. cbn [filter].
  destruct (startswith a (lit "##")); cbn [map snd]; now rewrite IH.
Qed.

(** Where the comprehension has the pair ([i], [h]), the lines before
    index [i] hold the headings listed before it, and the lines from
    index [i] on give the rest of the comprehension. *)
Lemma subheads_from_split (l : list pystr) :
  forall (n : nat) (t1 t2 : list (nat * pystr)) (i : nat) (h : pystr),
    subheads_from n l = t1 ++ (i, h) :: t2 ->
    n <= i
    /\ headings (firstn (i - n) l) = map snd t1
    /\ subheads_from i (skipn (i - n) l) = (i, h) :: t2.
Proof.
  induction l as [|a l IH]; intros n t1 t2 i h Hsub.
  - destruct t1; discriminate Hsub.
  - rewrite subheads_from_cons in Hsub.
    destruct (startswith a (lit "##")) eqn:Ea.
    + destruct t1 as [|x t1]; cbn [app] in Hsub.
      * injection Hsub as <- <- <-. rewrite Nat.sub_diag. cbn [firstn skipn].
        split; [lia|]. split; [reflexivity|].
        rewrite subheads_from_cons. now rewrite Ea.
      * injection Hsub as <- Hsub.
        destruct (IH (S n) t1 t2 i h Hsub) as (Hle & Hf & Hs).
        replace (i - n) with (S (i - S n)) by lia.
        cbn [firstn skipn]. split; [lia|]. split; [|exact Hs].
        unfold headings in *. cbn [filter map snd]. rewrite Ea.
        now rewrite Hf.
    + destruct (IH (S n) t1 t2 i h Hsub) as (Hle & Hf & Hs).
      replace (i - n) with (S (i - S n)) by lia.
      cbn [firstn skipn]. split; [lia|]. split; [|exact Hs].
      unfold headings in *. cbn [filter]. now rewrite Ea.
Qed.

(** The filter of the body drops no heading. *)
Lemma headings_filter_body (l : list pystr) :
  headings (filter (fun L => negb (startswith L (lit "<"))
                             && negb (startswith L (lit "!"))) l)
  = headings l.
Proof.
  unfold headings. induction l as [|a l IH]; [reflexivity|].
  cbn [filter].
  destruct (startswith a (lit "##")) eqn:Ea.
  - assert (Hk : negb (startswith a (lit "<"))
                 && negb (startswith a (lit "!")) = true).
    { destruct a as [|c a]; [discriminate Ea|].
      change (lit "##") with [35%N; 35%N] in Ea. cbn [startswith] in Ea.
      apply andb_true_iff in Ea. destruct Ea as [Ec _].
      apply N.eqb_eq in Ec. subst c. reflexivity. }
    rewrite Hk. cbn [filter]. rewrite Ea. now rewrite IH.
  - destruct (negb (startswith a (lit "<")) && negb (startswith a (lit "!")));
      [cbn [filter]; rewrite Ea|]; exact IH.
Qed.

Lemma body_headings (lines : list pystr) (subs : list (nat * pystr))
      (pen last : nat * pystr) :
  subheads_of lines = subs ++ [pen; last] ->
  headings (body_of lines) = map snd subs.
Proof.
  intro Hsub. unfold body_of. rewrite Hsub, rev_app_distr. cbn [rev app].
  destruct pen as [endline h2].
  change (subheads_of lines) with (subheads_from 0 lines) in Hsub.
  destruct subs as [|[startline h0] subs]; cbn [app].
  - unfold PyList.slice. rewrite Nat.sub_diag. reflexivity.
  - rewrite headings_filter_body. unfold PyList.slice.
    destruct (subheads_from_split lines 0 [] _ startline h0 Hsub)
      as (_ & _ & Hrest).
    rewrite Nat.sub_0_r in Hrest.
    destruct (subheads_from_split (skipn startline lines) startline
                ((startline, h0) :: subs) [last] endline h2 Hrest)
      as (_ & Hf & _).
    exact Hf.
Qed.

End BodyHeadings.

(** X8. The body a conforming wisdom document yields holds every
    heading of the document but the last two, in order: the sections
    About and Licensing never reach the section parser, and no other
    section is lost. *)
Theorem get_wisdom_lines_headings
        (path : pystr) (w : world) (raw : list pystr)
        (subs : list (nat * pystr)) (pen last : nat * pystr) :
  wisdom_md w = Some raw ->
  conforming (map strip raw) = true ->
  subheads_of (map strip raw) = subs ++ [pen; last] ->
  exists body,
    get_wisdom_lines path w = (Val body, w)
    /\ headings body = map snd subs
    /\ map snd (subheads_of body) = map snd subs.
Proof.
  intros Hfile Hconf Hsub.
  exists (body_of (map strip raw)).
  rewrite (get_wisdom_lines_run path w raw Hfile), Hconf.
  split; [reflexivity|].
  pose proof (body_headings _ _ _ _ Hsub) as Hb.
  split; [exact Hb|].
  unfold subheads_of, PyList.enumerate.
  rewrite <- Hb. apply subheads_from_headings.
Qed.

Lemma get_wisdom_lines_headings_witness :
  exists body,
    get_wisdom_lines SAMPLE_PATH (world_of_wisdom wisdom_misc)
    = (Val body, world_of_wisdom wisdom_misc)
    /\ headings body = [lit "## Misc"; lit "## Other"; lit "## Misc"]
    /\ map snd (subheads_of body)
       = [lit "## Misc"; lit "## Other"; lit "## Misc"].
Proof.
  exact (get_wisdom_lines_headings SAMPLE_PATH (world_of_wisdom wisdom_misc)
           wisdom_misc
           [(1, lit "## Misc"); (3, lit "## Other"); (5, lit "## Misc")]
           (7, lit "## About") (8, lit "## Licensing")
           eq_refl eq_refl eq_refl).
Defined.

(** ** Order and content of the dictionary *)

Section DictionaryContent.

Lemma existsb_str_eqb (K : list pystr) (x : pystr) :
  existsb (str_eqb x) K = true <-> In x K.
Proof.
  rewrite existsb_exists. split.
  - intros (y & Hy & E). apply str_eqb_eq in E. now subst.
  - intro H. exists x. split; [exact H|apply str_eqb_refl].
Qed.

Lemma keys_add_items (d : dict) (sec : pystr * list pystr) :
  keys (add_items d sec) =
  if mem (fst sec) d then keys d else keys d ++ [fst sec].
Proof.
  unfold add_items. destruct (mem (fst sec) d) eqn:E.
  - apply keys_extend.
  - now apply keys_set_new.
Qed.

Lemma filter_twice {A : Type} (f g : A -> bool) (l : list A) :
  filter f (filter g l) = filter (fun x => g x && f x) l.
Proof.
  induction l as [|a l IH]; [reflexivity|].
  cbn [filter]. destruct (g a); cbn [filter andb]; [|exact IH].
  destruct (f a); now rewrite IH.
Qed.

Lemma keys_fold_add_items (secs : list (pystr * list pystr)) (d : dict) :
  keys (fold_left add_items secs d) =
  keys d ++ filter (notin (keys d)) (distinct (map fst secs)).
Proof.
  revert d. induction secs as [|sec secs IH]; intro d.
  - cbn. now rewrite app_nil_r.
  - cbn [fold_left map distinct filter]. rewrite IH, keys_add_items.
    set (k := fst sec). set (D := distinct (map fst secs)).
    destruct (mem k d) eqn:Em.
    + assert (Hin : notin (keys d) k = false).
      { unfold notin. apply negb_false_iff, existsb_str_eqb.
        now apply mem_keys. }
      rewrite Hin. f_equal. rewrite filter_twice.
      apply filter_ext. intro x.
      destruct (str_eqb x k) eqn:Ex; cbn [negb andb]; [|reflexivity].
      apply str_eqb_eq in Ex. subst x. now rewrite Hin.
    + assert (Hin : notin (keys d) k = true).
      { unfold notin. apply negb_true_iff.
        destruct (existsb (str_eqb k) (keys d)) eqn:E; [|reflexivity].
        apply existsb_str_eqb, mem_keys in E. congruence. }
      rewrite Hin. rewrite <- app_assoc. cbn [app]. do 2 f_equal.
      rewrite filter_twice. apply filter_ext. intro x.
      unfold notin. rewrite existsb_app. cbn [existsb].
      rewrite orb_false_r, negb_orb. apply andb_comm.
Qed.

Lemma sections_of_names (lines : list pystr) :
  map fst (sections_of lines) =
  map section_name (map snd (subheads_of lines)).
Proof.
  unfold sections_of. rewrite !map_map. apply map_ext.
  intros [i h]. apply extract_wisdom_name.
Qed.

End DictionaryContent.

(** X9. The categories of the dictionary the section parser builds are
    the names of the sections of the body, each once, in the order in
    which the names first occur: a name met again keeps its first
    place. *)
Theorem get_wisdom_category_order :
  forall lines : list pystr,
    keys (wisdom_of_lines lines) =
    distinct (map section_name (map snd (subheads_of lines))).
Proof.
  intro lines. rewrite wisdom_of_lines_fold, keys_fold_add_items.
  cbn [keys map app]. rewrite <- sections_of_names.
  rewrite <- (filter_ext (fun _ => true)) by reflexivity.
  clear. induction (distinct (map fst (sections_of lines))) as [|a l IH];
    [reflexivity|]. cbn [filter]. now rewrite IH.
Qed.

(** ** Nothing is lost in the merge *)

Section Merge.

Lemma all_items_cons (k : pystr) (v : list pystr) (d : dict) :
  all_items ((k, v) :: d) = v ++ all_items d.
Proof. reflexivity. Qed.

Lemma all_items_set_new (d : dict) (k : pystr) (v : list pystr) :
  mem k d = false -> all_items (set d k v) = all_items d ++ v.
Proof.
  unfold mem. induction d as [|[k1 v1] d IH]; cbn [set get].
  - intros _. unfold all_items. cbn. now rewrite app_nil_r.
  - destruct (str_eqb k1 k); [intro H; discriminate H|]. intro H.
    rewrite !all_items_cons, IH by assumption. now rewrite app_assoc.
Qed.

Lemma all_items_extend (d : dict) (k : pystr) (c : list pystr) :
  mem k d = true -> Permutation (all_items (extend d k c)) (all_items d ++ c).
Proof.
  unfold mem. induction d as [|[k1 v1] d IH]; cbn [extend get].
  - intro H. discriminate H.
  - destruct (str_eqb k1 k); intro H; rewrite !all_items_cons.
    + rewrite <- !app_assoc. apply Permutation_app_head, Permutation_app_comm.
    + rewrite <- app_assoc. apply Permutation_app_head. now apply IH.
Qed.

Lemma all_items_add_items (d : dict) (sec : pystr * list pystr) :
  Permutation (all_items (add_items d sec)) (all_items d ++ snd sec).
Proof.
  unfold add_items. destruct (mem (fst sec) d) eqn:E.
  - now apply all_items_extend.
  - now rewrite all_items_set_new.
Qed.

Lemma all_items_fold (secs : list (pystr * list pystr)) (d : dict) :
  Permutation (all_items (fold_left add_items secs d))
              (all_items d ++ concat (map snd secs)).
Proof.
  revert d. induction secs as [|sec secs IH]; intro d.
  - cbn. now rewrite app_nil_r.
  - cbn [fold_left map concat].
    eapply Permutation_trans; [apply IH|].
    rewrite app_assoc. apply Permutation_app_tail, all_items_add_items.
Qed.

Lemma total_all_items (d : dict) :
  total d = Z.of_nat (length (all_items d)).
Proof.
  induction d as [|[k v] d IH]; [reflexivity|].
  rewrite total_cons, all_items_cons, length_app, IH. lia.
Qed.

End Merge.

(** X10. Merging the sections into the dictionary loses no item and
    invents none: the items of the dictionary are the items of the
    sections, up to the order in which categories are listed, and the
    total the selector counts is the number of those items. *)
Theorem get_wisdom_keeps_every_item :
  forall lines : list pystr,
    Permutation (all_items (wisdom_of_lines lines))
                (concat (map snd (sections_of lines)))
    /\ total (wisdom_of_lines lines) =
       Z.of_nat (length (concat (map snd (sections_of lines)))).
Proof.
  intro lines.
  assert (H : Permutation (all_items (wisdom_of_lines lines))
                          (concat (map snd (sections_of lines)))).
  { rewrite wisdom_of_lines_fold. apply (all_items_fold _ []). }
  split; [exact H|].
  rewrite total_all_items. f_equal. now apply Permutation_length.
Qed.

(** ** The refresh *)

Section RefreshCases.

Variable path : pystr.

(** All the ways [update] can end. *)
Lemma update_cases (w : world) :
  update path w =
  match quotes_md w with
  | None => (Raised FileNotFoundError, w)
  | Some qraw =>
      match wisdom_md w with
      | None => (Raised FileNotFoundError, warned w qraw)
      | Some wraw =>
          if conforming (map strip wraw)
          then (Val tt, set_json (warned w qraw) (refreshed qraw wraw))
          else (SysExit 1, add_stderr (warned w qraw) [parse_error path])
      end
  end.
Proof.
  destruct (quotes_md w) as [qraw|] eqn:Hq.
  - destruct (wisdom_md w) as [wraw|] eqn:Hw.
    + destruct (conforming (map strip wraw)) eqn:Hc.
      * now apply update_run.
      * unfold update, bind at 1.
        rewrite (get_quotes_run w qraw Hq). fold (warned w qraw).
        unfold bind at 1, get_wisdom, bind at 1.
        rewrite (get_wisdom_lines_run path (warned w qraw) wraw)
          by (now rewrite (proj1 (proj2 (warned_files w qraw)))).
        now rewrite Hc.
    + unfold update, bind at 1.
      rewrite (get_quotes_run w qraw Hq). fold (warned w qraw).
      unfold bind at 1, get_wisdom, bind at 1, get_wisdom_lines, bind at 1.
      unfold readlines.
      now rewrite (proj1 (proj2 (warned_files w qraw))), Hw.
  - unfold update, bind at 1, get_quotes, bind at 1, readlines.
    now rewrite Hq.
Qed.

Lemma warned_stderr (w : world) (qraw : list pystr) :
  exists l, stderr (warned w qraw) = stderr w ++ l.
Proof.
  unfold warned. destruct (any _).
  - eexists. reflexivity.
  - exists []. now rewrite app_nil_r.
Qed.

Lemma keys_set_present (d : dict) (k : pystr) (v : list pystr) :
  mem k d = true -> keys (set d k v) = keys d.
Proof.
  unfold mem, keys. induction d as [|[k1 v1] d IH]; cbn [set get map fst].
  - intro H. discriminate H.
  - destruct (str_eqb k1 k); [reflexivity|].
    intro H. cbn [map fst]. now rewrite IH.
Qed.

Lemma set_NoDup (d : dict) (k : pystr) (v : list pystr) :
  NoDup (keys d) -> NoDup (keys (set d k v)).
Proof.
  intro Hd. destruct (mem k d) eqn:E.
  - now rewrite keys_set_present.
  - rewrite keys_set_new by assumption.
    apply NoDup_app; [assumption|constructor; [tauto|constructor]|].
    intros x Hx [<-|[]]. apply mem_keys in Hx. congruence.
Qed.

End RefreshCases.

(** X11. A refresh that does not complete (a document is missing, or
    the wisdom document does not conform) leaves the cache as it was; no
    refresh, completed or not, writes to standard output or changes the
    two documents, and what was on the error stream stays in front. *)
Theorem update_failure_keeps_cache :
  forall (path : pystr) (w : world),
    (fst (update path w) <> Val tt ->
     wisdom_json (snd (update path w)) = wisdom_json w)
    /\ stdout (snd (update path w)) = stdout w
    /\ quotes_md (snd (update path w)) = quotes_md w
    /\ wisdom_md (snd (update path w)) = wisdom_md w
    /\ exists l, stderr (snd (update path w)) = stderr w ++ l.
Proof.
  intros path w. rewrite update_cases.
  destruct (quotes_md w) as [qraw|] eqn:Hq.
  2:{ cbn [snd]. repeat split; try assumption.
      exists []. now rewrite app_nil_r. }
  cbn [fst snd].
  destruct (warned_files w qraw) as (Wq & Ww & Wj & Wo).
  destruct (warned_stderr w qraw) as [l Hl].
  destruct (wisdom_md w) as [wraw|] eqn:Hw.
  2:{ cbn [snd]. repeat split; try congruence. now exists l. }
  destruct (conforming (map strip wraw)); cbn [snd].
  - split; [intro H; exfalso; now apply H|].
    cbn [set_json stdout quotes_md wisdom_md stderr].
    repeat split; try congruence. now exists l.
  - cbn [add_stderr stdout quotes_md wisdom_md wisdom_json stderr].
    repeat split; try congruence.
    exists (l ++ [parse_error path]). now rewrite Hl, app_assoc.
Qed.

(** X12. A refresh does not depend on the cache it replaces: from two
    states with the same two documents, whatever their caches and
    streams, [update] ends the same way, and where it completes it
    stores the same dictionary. So a second refresh of unchanged
    documents completes too and stores the same dictionary again. *)
Theorem update_ignores_old_cache (path : pystr) (w w' : world) :
  quotes_md w = quotes_md w' ->
  wisdom_md w = wisdom_md w' ->
  fst (update path w) = fst (update path w')
  /\ (fst (update path w) = Val tt ->
      (exists d, wisdom_json (snd (update path w)) = Some d)
      /\ wisdom_json (snd (update path w))
         = wisdom_json (snd (update path w'))
      /\ fst (update path (snd (update path w))) = Val tt
      /\ wisdom_json (snd (update path (snd (update path w))))
         = wisdom_json (snd (update path w))).
Proof.
  intros Hq Hw. rewrite (update_cases path w), (update_cases path w').
  rewrite <- Hq, <- Hw.
  destruct (quotes_md w) as [qraw|] eqn:Eq;
    [|split; [reflexivity|intro H; discriminate H]].
  destruct (wisdom_md w) as [wraw|] eqn:Ew;
    [|split; [reflexivity|intro H; discriminate H]].
  destruct (conforming (map strip wraw)) eqn:Ec;
    [|split; [reflexivity|intro H; discriminate H]].
  cbn [fst snd]. split; [reflexivity|]. intros _.
  split; [now eexists|]. split; [reflexivity|].
  destruct (warned_files w qraw) as (Wq & Ww & _ & _).
  rewrite update_cases. cbn [set_json quotes_md wisdom_md].
  rewrite Wq, Ww, Eq, Ew, Ec. split; reflexivity.
Qed.

Lemma update_ignores_old_cache_witness :
  fst (update SAMPLE_PATH world_fresh) = fst (update SAMPLE_PATH world_stale)
  /\ wisdom_json (snd (update SAMPLE_PATH world_fresh))
     = wisdom_json (snd (update SAMPLE_PATH world_stale))
  /\ wisdom_json (snd (update SAMPLE_PATH world_stale))
     = Some (refreshed quotes_example wisdom_misc).
Proof.
  destruct (update_ignores_old_cache SAMPLE_PATH world_fresh world_stale
              eq_refl eq_refl) as [Hfst Hdone].
  destruct (Hdone eq_refl) as (_ & Hsame & _).
  split; [exact Hfst|]. split; [exact Hsame|].
  rewrite <- Hsame. reflexivity.
Defined.

(** X13. The dictionary a completed refresh stores has no key twice;
    under the key [quotes] it holds the quotes of the quotations file,
    whatever a section of that name held; every other key holds what
    the section parser gave it. *)
Theorem update_stores_quotes
        (path : pystr) (w : world) (qraw wraw : list pystr) :
  quotes_md w = Some qraw ->
  wisdom_md w = Some wraw ->
  conforming (map strip wraw) = true ->
  exists d w1,
    update path w = (Val tt, w1)
    /\ wisdom_json w1 = Some d
    /\ NoDup (keys d)
    /\ get d (lit "quotes") = Some (fst (quotes_loop (quote_lines qraw) [] []))
    /\ (forall k, k <> lit "quotes" ->
                  get d k = get (wisdom_of_lines (body_of (map strip wraw))) k).
Proof.
  intros Hq Hw Hc.
  exists (refreshed qraw wraw), (set_json (warned w qraw) (refreshed qraw wraw)).
  split; [now apply update_run|]. split; [reflexivity|].
  unfold refreshed. split; [|split].
  - apply set_NoDup. rewrite wisdom_of_lines_fold.
    apply fold_add_items_NoDup. constructor.
  - now rewrite get_set, str_eqb_refl.
  - intros k Hk. rewrite get_set.
    destruct (str_eqb (lit "quotes") k) eqn:E; [|reflexivity].
    apply str_eqb_eq in E. congruence.
Qed.

Lemma update_stores_quotes_witness :
  exists d w1,
    update SAMPLE_PATH world_fresh = (Val tt, w1)
    /\ wisdom_json w1 = Some d
    /\ NoDup (keys d)
    /\ get d (lit "quotes") =
       Some (fst (quotes_loop (quote_lines quotes_example) [] []))
    /\ (forall k, k <> lit "quotes" ->
                  get d k =
                  get (wisdom_of_lines (body_of (map strip wisdom_misc))) k).
Proof.
  exact (update_stores_quotes SAMPLE_PATH world_fresh quotes_example
           wisdom_misc eq_refl eq_refl eq_refl).
Defined.

(** ** The command line *)

Section CommandLine.

Variable path : pystr.
Variable wrap : pystr -> list pystr.

(** The loop of [merlin] only writes to standard output. *)
Lemma merlin_loop_writes_stdout (d : dict) (i : Z) (w : world) :
  exists l, snd (merlin_loop wrap d i w) = add_stdout w l.
Proof.
  revert i. induction d as [|[k items] d IH]; intro i.
  - exists []. cbn. unfold add_stdout. rewrite app_nil_r. now destruct w.
  - cbn [merlin_loop]. destruct (i <? Z.of_nat (length items))%Z; [|apply IH].
    unfold bind, getitem. destruct (PyList.index items i) as [item|].
    + eexists. unfold ret, print, sys_exit. cbn [snd].
      now rewrite add_stdout_add_stdout.
    + exists []. cbn. unfold add_stdout. rewrite app_nil_r. now destruct w.
Qed.

Lemma merlin_writes_stdout (draw : Z) (w : world) :
  exists l, snd (merlin wrap draw w) = add_stdout w l.
Proof.
  assert (Hid : w = add_stdout w []).
  { unfold add_stdout. rewrite app_nil_r. now destruct w. }
  unfold merlin, bind at 1, json_load.
  destruct (wisdom_json w) as [d|]; [|now exists []].
  unfold bind, randint.
  destruct (total d - 1 <? 0)%Z; [now exists []|].
  apply merlin_loop_writes_stdout.
Qed.

Lemma main_plain (prog : pystr) (draw : Z) (w : world) :
  main path wrap [prog] draw w =
  match wisdom_json w with
  | Some _ => merlin wrap draw w
  | None => bind (update path) (fun _ => merlin wrap draw) w
  end.
Proof.
  unfold main. cbn [length Nat.ltb Nat.leb].
  unfold bind at 1, ret, bind at 1, json_exists.
  destruct (wisdom_json w); reflexivity.
Qed.

End CommandLine.

(** X14. Any command line with arguments other than the single
    argument [-u] or [--update] writes the usage text to the error
    stream and exits with code 1, without reading or writing a file and
    without printing an item. *)
Theorem main_usage
        (path : pystr) (wrap : pystr -> list pystr) (argv : list pystr)
        (draw : Z) (w : world) :
  1 < length argv ->
  ~ (exists prog flag,
        argv = [prog; flag] /\ (flag = lit "-u" \/ flag = lit "--update")) ->
  main path wrap argv draw w = (SysExit 1, add_stderr w [Text USAGE]).
Proof.
  intros Hlen Hnot. unfold main.
  destruct (Nat.ltb_spec 1 (length argv)) as [_|]; [|lia].
  assert (Hf : (length argv =? 2)
               && (str_eqb (nth 1 argv []) (lit "-u")
                   || str_eqb (nth 1 argv []) (lit "--update")) = false).
  { destruct argv as [|prog [|flag [|x rest]]]; try reflexivity.
    cbn [length Nat.eqb nth andb].
    apply orb_false_iff. split; apply str_eqb_neq; intro E;
      apply Hnot; exists prog, flag; tauto. }
  rewrite Hf. reflexivity.
Qed.

Lemma main_usage_witness :
  main SAMPLE_PATH sample_wrap [lit "merlin.py"; lit "-x"] 0 world_fresh
  = (SysExit 1, add_stderr world_fresh [Text USAGE])
  /\ main SAMPLE_PATH sample_wrap [lit "merlin.py"; lit "-u"; lit "-u"] 0
          world_fresh
     = (SysExit 1, add_stderr world_fresh [Text USAGE]).
Proof.
  split; apply main_usage; try (cbn; lia);
    intros (prog & flag & E & [F|F]); subst flag; discriminate E.
Defined.

(** X15. With the cache in place, a call without arguments only runs
    the selector: neither document is read (they may be missing), the
    cache and the error stream stay as they are. *)
Theorem main_with_cache_only_selects
        (path : pystr) (wrap : pystr -> list pystr) (prog : pystr)
        (draw : Z) (w : world) (d : dict) :
  wisdom_json w = Some d ->
  main path wrap [prog] draw w = merlin wrap draw w
  /\ exists l, snd (main path wrap [prog] draw w) = add_stdout w l.
Proof.
  intro Hjson. rewrite main_plain, Hjson.
  split; [reflexivity|apply merlin_writes_stdout].
Qed.

Lemma main_with_cache_only_selects_witness :
  main SAMPLE_PATH sample_wrap [lit "merlin.py"] 1 (world_of_cache store_ab)
  = merlin sample_wrap 1 (world_of_cache store_ab)
  /\ exists l,
       snd (main SAMPLE_PATH sample_wrap [lit "merlin.py"] 1
                 (world_of_cache store_ab))
       = add_stdout (world_of_cache store_ab) l.
Proof.
  exact (main_with_cache_only_selects SAMPLE_PATH sample_wrap
           (lit "merlin.py") 1 (world_of_cache store_ab) store_ab eq_refl).
Defined.

(** X16. Without a cache, a call without arguments does what a call
    with [-u] or [--update] does: it refreshes, then selects. *)
Theorem main_first_run_is_update
        (path : pystr) (wrap : pystr -> list pystr) (prog flag : pystr)
        (draw : Z) (w : world) :
  wisdom_json w = None ->
  flag = lit "-u" \/ flag = lit "--update" ->
  main path wrap [prog] draw w = main path wrap [prog; flag] draw w
  /\ main path wrap [prog] draw w
     = bind (update path) (fun _ => merlin wrap draw) w.
Proof.
  intros Hjson Hflag.
  rewrite main_plain, Hjson. split; [|reflexivity].
  rewrite (main_update_flag path wrap prog flag draw w Hflag).
  unfold bind at 1. rewrite update_cases.
  destruct (quotes_md w) as [qraw|]; [|reflexivity].
  destruct (wisdom_md w) as [wraw|]; [|reflexivity].
  destruct (conforming (map strip wraw)); reflexivity.
Qed.

Lemma main_first_run_is_update_witness :
  main SAMPLE_PATH sample_wrap [lit "merlin.py"] 0 world_fresh
  = main SAMPLE_PATH sample_wrap [lit "merlin.py"; lit "-u"] 0 world_fresh
  /\ main SAMPLE_PATH sample_wrap [lit "merlin.py"] 0 world_fresh
     = bind (update SAMPLE_PATH) (fun _ => merlin sample_wrap 0) world_fresh.
Proof.
  apply (main_first_run_is_update SAMPLE_PATH sample_wrap (lit "merlin.py")
           (lit "-u") 0 world_fresh).
  - reflexivity.
  - now left.
Defined.

(** X17. The selector touches nothing but standard output: whatever the
    cache and the draw, the two documents, the cache and the error
    stream are after [merlin] what they were before. *)
Theorem merlin_only_prints :
  forall (wrap : pystr -> list pystr) (draw : Z) (w : world),
    quotes_md (snd (merlin wrap draw w)) = quotes_md w
    /\ wisdom_md (snd (merlin wrap draw w)) = wisdom_md w
    /\ wisdom_json (snd (merlin wrap draw w)) = wisdom_json w
    /\ stderr (snd (merlin wrap draw w)) = stderr w.
Proof.
  intros wrap draw w.
  destruct (merlin_writes_stdout wrap draw w) as [l ->].
  repeat split.
Qed.

(** ** Lines of an item *)

Section ItemLines.

Lemma splitlines_from_line (L rest cur : pystr) :
  one_line L = true ->
  splitlines_from cur (L ++ rest) = splitlines_from (rev L ++ cur) rest.
Proof.
  revert cur. induction L as [|c L IH]; intros cur Hone; [reflexivity|].
  cbn [one_line forallb] in Hone. apply andb_true_iff in Hone.
  destruct Hone as [Hc HL]. apply andb_true_iff in Hc.
  destruct Hc as [Hcr Hlb]. apply negb_true_iff in Hcr, Hlb.
  cbn [app splitlines_from]. rewrite Hcr, Hlb.
  rewrite (IH (c :: cur) HL). cbn [rev]. now rewrite <- app_assoc.
Qed.

Lemma splitlines_from_break (rest cur : pystr) :
  splitlines_from cur (NL ++ rest) = rev cur :: splitlines_from [] rest.
Proof. reflexivity. Qed.

Lemma splitlines_join (ls : list pystr) :
  (forall L, In L ls -> one_line L = true) ->
  last ls NL <> [] ->
  splitlines (join NL ls) = ls.
Proof.
  unfold splitlines.
  induction ls as [|L ls IH]; intros Hone Hlast; [reflexivity|].
  destruct ls as [|M ls].
  - cbn [join last] in *. rewrite <- (app_nil_r L) at 1.
    rewrite splitlines_from_line by (apply Hone; now left).
    rewrite app_nil_r. cbn [splitlines_from].
    destruct (rev L) as [|c r] eqn:E.
    + apply (f_equal (@rev _)) in E. rewrite rev_involutive in E.
      now subst L.
    + now rewrite <- E, rev_involutive.
  - change (join NL (L :: M :: ls)) with (L ++ NL ++ join NL (M :: ls)).
    rewrite splitlines_from_line by (apply Hone; now left).
    rewrite splitlines_from_break, app_nil_r, rev_involutive.
    f_equal. apply IH.
    + intros L' HL'. apply Hone. now right.
    + exact Hlast.
Qed.

End ItemLines.

(** X18. The selector wraps an item line by line. For an item that is
    the join, by line breaks, of lines free of line-boundary characters,
    the last of them not empty, [splitlines] gives those lines back and
    what is printed is the join of the wrappings of each line. *)
Theorem format_wraps_each_line
        (wrap : pystr -> list pystr) (ls : list pystr) :
  (forall L, In L ls -> one_line L = true) ->
  last ls NL <> [] ->
  splitlines (join NL ls) = ls
  /\ format wrap (join NL ls) = join NL (map (fun L => join NL (wrap L)) ls).
Proof.
  intros Hone Hlast.
  pose proof (splitlines_join ls Hone Hlast) as Hs.
  split; [exact Hs|]. unfold format. now rewrite Hs.
Qed.

Lemma format_wraps_each_line_witness :
  splitlines (join NL [lit "Quote line one"; []; lit "- Attribution"])
  = [lit "Quote line one"; []; lit "- Attribution"]
  /\ format sample_wrap
            (join NL [lit "Quote line one"; []; lit "- Attribution"])
     = join NL (map (fun L => join NL (sample_wrap L))
                    [lit "Quote line one"; []; lit "- Attribution"]).
Proof.
  apply (format_wraps_each_line sample_wrap
           [lit "Quote line one"; []; lit "- Attribution"]).
  - intros L [<-|[<-|[<-|[]]]]; reflexivity.
  - discriminate.
Defined.

(** ** Two edge cases *)

(** X19. In the quotations file a heading line or a separator line can
    stand anywhere, even inside a quote: taking it out changes neither
    the quotes returned nor the pending buffer. *)
Theorem get_quotes_ignores_rules
        (w w' : world) (pre post : list pystr) (rule : pystr) :
  quotes_md w = Some (pre ++ rule :: post) ->
  quotes_md w' = Some (pre ++ post) ->
  startswith (strip rule) (lit "#") = true
  \/ is_separator (strip rule) = true ->
  fst (get_quotes w) = fst (get_quotes w')
  /\ quote_lines (pre ++ rule :: post) = quote_lines (pre ++ post).
Proof.
  intros Hw Hw' Hrule.
  assert (Hl : quote_lines (pre ++ rule :: post) = quote_lines (pre ++ post)).
  { change (rule :: post) with ([rule] ++ post).
    rewrite !quote_lines_app.
    assert (Hr : quote_lines [rule] = []).
    { unfold quote_lines. cbn [map filter].
      destruct Hrule as [-> | ->]; [reflexivity|].
      now rewrite andb_false_r. }
    now rewrite Hr. }
  split; [|exact Hl].
  rewrite (get_quotes_run w _ Hw), (get_quotes_run w' _ Hw').
  cbn [fst]. now rewrite Hl.
Qed.

Lemma get_quotes_ignores_rules_witness :
  fst (get_quotes
         (world_of_quotes ([lit "Quote line one"] ++ lit "---"
                           :: [lit "- Attribution"])))
  = fst (get_quotes
           (world_of_quotes ([lit "Quote line one"] ++ [lit "- Attribution"])))
  /\ quote_lines ([lit "Quote line one"] ++ lit "---" :: [lit "- Attribution"])
     = quote_lines ([lit "Quote line one"] ++ [lit "- Attribution"]).
Proof.
  apply (get_quotes_ignores_rules
           (world_of_quotes ([lit "Quote line one"] ++ lit "---"
                             :: [lit "- Attribution"]))
           (world_of_quotes ([lit "Quote line one"] ++ [lit "- Attribution"]))
           [lit "Quote line one"] [lit "- Attribution"] (lit "---")).
  - reflexivity.
  - reflexivity.
  - now right.
Defined.

(** X20. When the documents hold no item at all, a refresh still
    completes and stores a cache without items, and the selection that
    follows on the same command line ends in the [ValueError] of the
    empty range, with nothing printed. *)
Theorem main_update_without_items
        (path : pystr) (wrap : pystr -> list pystr) (prog flag : pystr)
        (draw : Z) (w : world) (qraw wraw : list pystr) :
  flag = lit "-u" \/ flag = lit "--update" ->
  quotes_md w = Some qraw ->
  wisdom_md w = Some wraw ->
  conforming (map strip wraw) = true ->
  total (refreshed qraw wraw) = 0%Z ->
  main path wrap [prog; flag] draw w =
    (Raised ValueError, set_json (warned w qraw) (refreshed qraw wraw)).
Proof.
  intros Hflag Hq Hw Hc Hzero.
  rewrite (main_update_flag path wrap prog flag draw w Hflag).
  rewrite (update_run path w qraw wraw Hq Hw Hc).
  cbn [wisdom_json set_json].
  rewrite (merlin_run wrap (refreshed qraw wraw) draw
             (set_json (warned w qraw) (refreshed qraw wraw)) eq_refl).
  now rewrite Hzero.
Qed.

Lemma main_update_without_items_witness :
  main SAMPLE_PATH sample_wrap [lit "merlin.py"; lit "-u"] 0 world_no_items
  = (Raised ValueError,
     set_json (warned world_no_items [])
              (refreshed [] wisdom_no_items)).
Proof.
  apply (main_update_without_items SAMPLE_PATH sample_wrap (lit "merlin.py")
           (lit "-u") 0 world_no_items [] wisdom_no_items).
  - now left.
  - reflexivity.
  - reflexivity.
  - reflexivity.
  - reflexivity.
Defined.
